(** * web-browser-storage: a shallow embedding of the storage facades

    The development follows the JavaScript sources:
    - [matchesPattern]            the cache-inclusion pattern matcher,
    - [MemoryStorage]             the in-memory backend with its shared table
                                  and external-change listener registry,
    - [CachedStorage]             the write-coalescing cache layer.

    Conventions of the embedding.
    - A JavaScript string is a [string]; one character stands for one UTF-16
      code unit, so [String.length] is the [.length] of the source.
    - A plain JavaScript object used as a table ([_data], [cache]) is an
      association list with unique keys kept in insertion order; properties
      inherited from [Object.prototype] are outside the model.
    - An exception is the [Throw] case of [result].
    - A listener is a function reference: it is modelled by a token compared
      with [!==], and every invocation of a listener is appended to the
      [calls] log of the shared store instead of being executed. *)

From Stdlib Require Import ZArith List String Ascii Bool Lia Permutation.
From Stdlib Require Import Numbers.DecimalString.
Import ListNotations.

#[local] Set Warnings "-register-all".

Local Open Scope string_scope.
Local Open Scope Z_scope.

(** ** Exceptions *)

Inductive error : Type :=
| InvalidPattern        (* matchesPattern: asterisk not at the end *)
| AlreadyStarted        (* CachedStorage.start on a started instance *)
| NotStarted            (* CachedStorage.stop on a stopped instance *)
| MissingIdentity       (* MemoryStorage.createSharedInstance without id *)
| MissingRequiredOption (* CachedStorage constructor without flushDelay *)
| TypeError.            (* property access on undefined *)

Inductive result (A : Type) : Type :=
| Ok (a : A)
| Throw (e : error).

Arguments Ok {A} a.
Arguments Throw {A} e.

Definition bind {A B : Type} (r : result A) (k : A -> result B) : result B :=
  match r with
  | Ok a => k a
  | Throw e => Throw e
  end.

Notation "x <- r ;; k" := (bind r (fun x => k))
  (at level 61, r at next level, right associativity).

(** ** JavaScript strings, values and objects *)

Module JS.

(** [s.indexOf(sub)]: the first position at which [sub] occurs in [s],
    or [-1]. *)
Fixpoint indexOf_from (s sub : string) (k : Z) : Z :=
  if String.prefix sub s then k
  else match s with
       | EmptyString => -1
       | String _ s' => indexOf_from s' sub (k + 1)
       end.

Definition indexOf (s sub : string) : Z := indexOf_from s sub 0.

(** [s.slice(b, e)]: negative positions count from the end, both are
    clamped to the string. *)
Definition slice (s : string) (b e : Z) : string :=
  let len := Z.of_nat (String.length s) in
  let from := if b <? 0 then Z.max (len + b) 0 else Z.min b len in
  let to := if e <? 0 then Z.max (len + e) 0 else Z.min e len in
  String.substring (Z.to_nat from) (Z.to_nat (Z.max (to - from) 0)) s.

Inductive value : Type :=
| VUndefined
| VNull
| VBool (b : bool)
| VNum (n : Z)
| VStr (s : string)
| VArr (items : list value)
| VObj (props : list (string * value)).

(** A plain object: own enumerable string-keyed properties. *)
Definition object : Type := list (string * value).

Definition is_undefined (v : value) : bool :=
  match v with VUndefined => true | _ => false end.

Definition is_null (v : value) : bool :=
  match v with VNull => true | _ => false end.

(** [o.hasOwnProperty(k)], and [k in o] for the tables of this library. *)
Fixpoint hasOwnProperty (o : object) (k : string) : bool :=
  match o with
  | [] => false
  | (k', _) :: o' => if String.eqb k' k then true else hasOwnProperty o' k
  end.

(** [o[k]]: [undefined] when there is no such property. *)
Fixpoint prop_get (o : object) (k : string) : value :=
  match o with
  | [] => VUndefined
  | (k', v) :: o' => if String.eqb k' k then v else prop_get o' k
  end.

(** [o[k] = v]: an existing property keeps its place, a new one goes last. *)
Fixpoint prop_set (o : object) (k : string) (v : value) : object :=
  match o with
  | [] => [(k, v)]
  | (k', v') :: o' =>
      if String.eqb k' k then (k', v) :: o' else (k', v') :: prop_set o' k v
  end.

(** [delete o[k]]. *)
Fixpoint prop_delete (o : object) (k : string) : object :=
  match o with
  | [] => []
  | (k', v') :: o' =>
      if String.eqb k' k then prop_delete o' k else (k', v') :: prop_delete o' k
  end.

(** Array indices: canonical decimal numerals below 2^32 - 1.  They are
    enumerated first, in ascending order, by [Object.keys]. *)
Definition digit_of (c : ascii) : option N :=
  let n := N_of_ascii c in
  if ((48 <=? n) && (n <=? 57))%N then Some (n - 48)%N else None.

Fixpoint decimal_value (s : string) (acc : N) : option N :=
  match s with
  | EmptyString => Some acc
  | String c s' =>
      match digit_of c with
      | Some d => decimal_value s' (acc * 10 + d)%N
      | None => None
      end
  end.

Definition array_index (k : string) : option N :=
  match k with
  | EmptyString => None
  | String c rest =>
      if andb (Ascii.eqb c "0") (negb (String.eqb rest "")) then None
      else if Nat.ltb 10 (String.length k) then None
      else match decimal_value k 0%N with
           | Some n => if (n <? 4294967295)%N then Some n else None
           | None => None
           end
  end.

Fixpoint insert_index (x : N * string) (l : list (N * string)) : list (N * string) :=
  match l with
  | [] => [x]
  | y :: l' => if (fst x <=? fst y)%N then x :: l else y :: insert_index x l'
  end.

Fixpoint index_keys (ks : list string) : list (N * string) :=
  match ks with
  | [] => []
  | k :: ks' =>
      match array_index k with
      | Some n => insert_index (n, k) (index_keys ks')
      | None => index_keys ks'
      end
  end.

Definition named_keys (ks : list string) : list string :=
  filter (fun k => match array_index k with Some _ => false | None => true end) ks.

(** [Object.keys(o)]. *)
Definition Object_keys (o : object) : list string :=
  let ks := map fst o in
  map snd (index_keys ks) ++ named_keys ks.

(** [array.includes(k)] on an array of strings. *)
Definition includes (ks : list string) (k : string) : bool :=
  existsb (String.eqb k) ks.

(** *** JSON text *)

Definition dquote : ascii := ascii_of_N 34.

Definition hex_digit (n : N) : ascii :=
  ascii_of_N (if (n <? 10)%N then 48 + n else 87 + n)%N.

Definition escape_char (c : ascii) : string :=
  let n := N_of_ascii c in
  if (n =? 34)%N then String "\" (String dquote EmptyString)
  else if (n =? 92)%N then "\\"
  else if (n =? 8)%N then "\b"
  else if (n =? 12)%N then "\f"
  else if (n =? 10)%N then "\n"
  else if (n =? 13)%N then "\r"
  else if (n =? 9)%N then "\t"
  else if (n <? 32)%N then
    "\u00" ++ String (hex_digit (n / 16)) (String (hex_digit (n mod 16)) "")
  else String c "".

Fixpoint escape (s : string) : string :=
  match s with
  | EmptyString => ""
  | String c s' => escape_char c ++ escape s'
  end.

Definition quote (s : string) : string :=
  String dquote (escape s ++ String dquote EmptyString).

Definition number_text (n : Z) : string :=
  NilZero.string_of_int (Z.to_int n).

Fixpoint join (sep : string) (l : list string) : string :=
  match l with
  | [] => ""
  | [x] => x
  | x :: l' => x ++ sep ++ join sep l'
  end.

(** [JSON.stringify(v)]: [None] is the [undefined] it returns for
    [undefined]. *)
Fixpoint JSON_stringify (v : value) : option string :=
  match v with
  | VUndefined => None
  | VNull => Some "null"
  | VBool b => Some (if b then "true" else "false")
  | VNum n => Some (number_text n)
  | VStr s => Some (quote s)
  | VArr items =>
      Some ("[" ++ join ","
              (map (fun x => match JSON_stringify x with
                             | Some t => t
                             | None => "null"
                             end) items) ++ "]")
  | VObj props =>
      Some ("{" ++ join ","
              (flat_map (fun p => match JSON_stringify (snd p) with
                                  | Some t => [quote (fst p) ++ ":" ++ t]
                                  | None => []
                                  end) props) ++ "}")
  end.

(** [JSON.parse(JSON.stringify(v))] for a [v] other than [undefined]: the
    value read back from its text.  An [undefined] array item comes back as
    [null] and a property holding [undefined] is dropped. *)
Fixpoint JSON_roundtrip (v : value) : value :=
  match v with
  | VArr items =>
      VArr (map (fun x => if is_undefined x then VNull else JSON_roundtrip x) items)
  | VObj props =>
      VObj (flat_map (fun p => if is_undefined (snd p) then []
                               else [(fst p, JSON_roundtrip (snd p))]) props)
  | _ => v
  end.

End JS.

(** ** matchesPattern.js *)

Definition matchesPattern (string pattern : string) : result bool :=
  let asteriskIndex := JS.indexOf pattern "*" in
  if asteriskIndex >=? 0 then
    if negb (asteriskIndex =? Z.of_nat (String.length pattern) - 1) then
      Throw InvalidPattern
    else
      Ok (JS.indexOf string (JS.slice pattern 0 asteriskIndex) =? 0)
  else
    Ok (String.eqb string pattern).

(** ** MemoryStorage.js *)

Module MemoryStorage.

(** A listener function, known by its reference. *)
Definition listener : Type := nat.

(** The payload [{ key, value, prevValue }] handed to a listener. *)
Record change : Type := Change {
  key : string;
  value : JS.value;
  prevValue : JS.value
}.

(** An entry [{ storageId, listener }] of the listener registry;
    [storageId = None] is [undefined]. *)
Record registration : Type := Registration {
  storageId : option string;
  listener_fn : listener
}.

(** One invocation [listener({ key, value, prevValue })]. *)
Record call : Type := Call {
  callee : registration;
  payload : change
}.

(** What the facades made by [createSharedInstance] have in common: the
    table behind [dataSource], the registry behind
    [getExternalChangeListeners] / [setExternalChangeListeners], and the
    log of the listener invocations made so far. *)
Record shared : Type := Shared {
  data : JS.object;
  externalChangeListeners : list registration;
  calls : list call
}.

(** The fields of one facade; [id = None] is [undefined]. *)
Record t : Type := Facade {
  id : option string;
  stringifyStoredValues : option bool
}.

(** [new MemoryStorage({ id, stringifyStoredValues })] without a
    [dataSource]: a facade over a fresh table and registry. *)
Definition new (id : option string) (stringifyStoredValues : option bool)
  : t * shared :=
  (Facade id stringifyStoredValues, Shared [] [] []).

Definition createSharedInstance (this : t) (id : option string) : result t :=
  match id with
  | None => Throw MissingIdentity
  | Some i =>
      if String.eqb i EmptyString then Throw MissingIdentity
      else Ok (Facade (Some i) (stringifyStoredValues this))
  end.

(** The body of the [for ... of] loop of [triggerExternalChangeListeners],
    for a facade whose [id] is [this_id]. *)
Fixpoint notify (this_id : string) (regs : list registration) (c : change)
  : list call :=
  match regs with
  | [] => []
  | r :: rest =>
      match storageId r with
      | Some sid =>
          if negb (String.eqb sid this_id)
          then Call r c :: notify this_id rest c
          else notify this_id rest c
      | None => notify this_id rest c
      end
  end.

Definition triggerExternalChangeListeners (this : t) (st : shared) (c : change)
  : shared :=
  match id this with
  | Some this_id =>
      Shared (data st) (externalChangeListeners st)
             (calls st ++ notify this_id (externalChangeListeners st) c)
  | None => st
  end.

Definition has (this : t) (st : shared) (key : string) : bool :=
  JS.hasOwnProperty (data st) key.

Definition get (this : t) (st : shared) (key : string) : JS.value :=
  if negb (has this st key) then JS.VNull
  else
    let item := JS.prop_get (data st) key in
    match stringifyStoredValues this with
    | Some false => item
    | _ => if negb (JS.is_undefined item) then JS.JSON_roundtrip item else item
    end.

Definition set (this : t) (st : shared) (key : string) (value : JS.value)
  : shared :=
  let prevValue := get this st key in
  let st := Shared (JS.prop_set (data st) key value)
                   (externalChangeListeners st) (calls st) in
  triggerExternalChangeListeners this st (Change key value prevValue).

Definition delete (this : t) (st : shared) (key : string) : shared :=
  let prevValue := get this st key in
  let st := Shared (JS.prop_delete (data st) key)
                   (externalChangeListeners st) (calls st) in
  triggerExternalChangeListeners this st (Change key JS.VNull prevValue).

Definition keys (this : t) (st : shared) : list string :=
  JS.Object_keys (data st).

(** [JSON.stringify(v).length]; reading [length] of [undefined] throws. *)
Definition stringified_length (v : JS.value) : result Z :=
  match JS.JSON_stringify v with
  | Some text => Ok (Z.of_nat (String.length text))
  | None => Throw TypeError
  end.

Definition getRecordSize (this : t) (st : shared) (key : string) : result Z :=
  if negb (has this st key) then Ok 0
  else
    let size := Z.of_nat (String.length key) in
    let value := JS.prop_get (data st) key in
    size <- (if negb (JS.is_null value) && negb (JS.is_undefined value)
             then n <- stringified_length value ;; Ok (size + n)
             else Ok size) ;;
    Ok (size * 2).

(** The function returned by [onExternalChange(listener)]. *)
Definition unsubscribe (listener : listener) (st : shared) : shared :=
  Shared (data st)
         (filter (fun r => negb (Nat.eqb (listener_fn r) listener))
                 (externalChangeListeners st))
         (calls st).

Definition onExternalChange (this : t) (st : shared) (listener : listener)
  : shared * (shared -> shared) :=
  (Shared (data st)
          (externalChangeListeners st ++ [Registration (id this) listener])
          (calls st),
   unsubscribe listener).

End MemoryStorage.

(** ** Collaborators of CachedStorage *)

Module Timer.

(** Modelled from the spec: the timer of package [web-browser-timer],
    which is not part of this repository.  Its contract is
    [now() -> timestamp], [schedule(callback, delayMs) -> handle] and
    [cancel(handle) -> void]; cancelling a handle that is not armed does
    nothing.  A handle is truthy, as the handles of [setTimeout] are.  The
    only callback this library schedules is [flush], so a pending entry is
    a handle with the time it is due at. *)
Definition handle : Type := positive.

Record t : Type := Make {
  time : Z;
  nextHandle : handle;
  scheduled : list (handle * Z)
}.

(** [new Timer()]: nothing is armed. *)
Definition new (time : Z) : t := Make time 1%positive [].

Definition now (tm : t) : Z := time tm.

Definition schedule (tm : t) (delay : Z) : t * handle :=
  (Make (time tm) (Pos.succ (nextHandle tm))
        (scheduled tm ++ [(nextHandle tm, time tm + delay)]),
   nextHandle tm).

Definition cancel (tm : t) (h : handle) : t :=
  Make (time tm) (nextHandle tm)
       (filter (fun e => negb (Pos.eqb (fst e) h)) (scheduled tm)).

(** Time passes. *)
Definition advance (tm : t) (d : Z) : t :=
  Make (time tm + d) (nextHandle tm) (scheduled tm).

End Timer.

Module TabStatusWatcher.

(** Modelled from the spec: the tab-status watcher of package
    [web-browser-tab], which is not part of this repository.  Its contract
    is [start()], [stop()], [isActive() -> bool] and [onInactive(callback)];
    the callback registered by [CachedStorage] is [flush]. *)
Record t : Type := Make {
  started : bool;
  active : bool
}.

Definition start (w : t) : t := Make true (active w).
Definition stop (w : t) : t := Make false (active w).
Definition isActive (w : t) : bool := active w.
Definition setActive (w : t) (b : bool) : t := Make (started w) b.

End TabStatusWatcher.

(** ** CachedStorage.js *)

Module CachedStorage.

(** [import defaultMatchesPattern from './matchesPattern.js'] *)
Definition defaultMatchesPattern : string -> string -> result bool :=
  matchesPattern.

(** The [merge] option: [(key, cachedValue, externalValue) => merged]. *)
Definition merge_fn : Type := string -> JS.value -> JS.value -> JS.value.

(** The fields of an instance.  [backend] is the table and registry that
    [storage] shares with the other facades; [cachedKeys] is
    [options.cachedKeys] and [flushDelay] is [options.flushDelay]. *)
Record t : Type := Make {
  storage : MemoryStorage.t;
  backend : MemoryStorage.shared;
  tabStatusWatcher : TabStatusWatcher.t;
  timer : Timer.t;
  merge : option merge_fn;
  matchesPattern : string -> string -> result bool;
  flushDelay : Z;
  cachedKeys : option (list string);
  cache : JS.object;
  previouslyFlushedAt : Z;
  flushTimer : option Timer.handle;
  _isStarted : bool;
  stopListeningToExternalChanges :
    option (MemoryStorage.shared -> MemoryStorage.shared)
}.

Definition with_backend (this : t) (b : MemoryStorage.shared) : t :=
  Make (storage this) b (tabStatusWatcher this) (timer this) (merge this)
       (matchesPattern this) (flushDelay this) (cachedKeys this) (cache this)
       (previouslyFlushedAt this) (flushTimer this) (_isStarted this)
       (stopListeningToExternalChanges this).

Definition with_tabStatusWatcher (this : t) (w : TabStatusWatcher.t) : t :=
  Make (storage this) (backend this) w (timer this) (merge this)
       (matchesPattern this) (flushDelay this) (cachedKeys this) (cache this)
       (previouslyFlushedAt this) (flushTimer this) (_isStarted this)
       (stopListeningToExternalChanges this).

Definition with_timer (this : t) (tm : Timer.t) : t :=
  Make (storage this) (backend this) (tabStatusWatcher this) tm (merge this)
       (matchesPattern this) (flushDelay this) (cachedKeys this) (cache this)
       (previouslyFlushedAt this) (flushTimer this) (_isStarted this)
       (stopListeningToExternalChanges this).

Definition with_cachedKeys (this : t) (ks : option (list string)) : t :=
  Make (storage this) (backend this) (tabStatusWatcher this) (timer this)
       (merge this) (matchesPattern this) (flushDelay this) ks (cache this)
       (previouslyFlushedAt this) (flushTimer this) (_isStarted this)
       (stopListeningToExternalChanges this).

Definition with_cache (this : t) (c : JS.object) : t :=
  Make (storage this) (backend this) (tabStatusWatcher this) (timer this)
       (merge this) (matchesPattern this) (flushDelay this) (cachedKeys this) c
       (previouslyFlushedAt this) (flushTimer this) (_isStarted this)
       (stopListeningToExternalChanges this).

Definition with_previouslyFlushedAt (this : t) (at_ : Z) : t :=
  Make (storage this) (backend this) (tabStatusWatcher this) (timer this)
       (merge this) (matchesPattern this) (flushDelay this) (cachedKeys this)
       (cache this) at_ (flushTimer this) (_isStarted this)
       (stopListeningToExternalChanges this).

Definition with_flushTimer (this : t) (h : option Timer.handle) : t :=
  Make (storage this) (backend this) (tabStatusWatcher this) (timer this)
       (merge this) (matchesPattern this) (flushDelay this) (cachedKeys this)
       (cache this) (previouslyFlushedAt this) h (_isStarted this)
       (stopListeningToExternalChanges this).

Definition with_isStarted (this : t) (b : bool) : t :=
  Make (storage this) (backend this) (tabStatusWatcher this) (timer this)
       (merge this) (matchesPattern this) (flushDelay this) (cachedKeys this)
       (cache this) (previouslyFlushedAt this) (flushTimer this) b
       (stopListeningToExternalChanges this).

Definition with_stopListening (this : t)
  (f : option (MemoryStorage.shared -> MemoryStorage.shared)) : t :=
  Make (storage this) (backend this) (tabStatusWatcher this) (timer this)
       (merge this) (matchesPattern this) (flushDelay this) (cachedKeys this)
       (cache this) (previouslyFlushedAt this) (flushTimer this)
       (_isStarted this) f.

(** The constructor; an option left out is [None]. *)
Definition new (storage : MemoryStorage.t) (backend : MemoryStorage.shared)
    (tabStatusWatcher : TabStatusWatcher.t) (timer : Timer.t)
    (flushDelay : option Z) (merge : option merge_fn)
    (matchesPattern : option (string -> string -> result bool))
    (cachedKeys : option (list string)) : result t :=
  match flushDelay with
  | None => Throw MissingRequiredOption
  | Some delay =>
      Ok (Make storage backend tabStatusWatcher timer merge
               (match matchesPattern with
                | Some f => f
                | None => defaultMatchesPattern
                end)
               delay cachedKeys [] 0 None false None)
  end.

(** The loop of [flush]: [storage.set(key, cache[key])] for each key. *)
Definition write_back (this : t) (ks : list string) : MemoryStorage.shared :=
  fold_left
    (fun b key => MemoryStorage.set (storage this) b key (JS.prop_get (cache this) key))
    ks (backend this).

Definition flush (this : t) : t :=
  let this := with_backend this (write_back this (JS.Object_keys (cache this))) in
  let this := with_cache this [] in
  let this := with_previouslyFlushedAt this (Timer.now (timer this)) in
  match flushTimer this with
  | Some h =>
      let this := with_timer this (Timer.cancel (timer this) h) in
      with_flushTimer this None
  | None => this
  end.

(** The listener that [start] passes to [onExternalChange]. *)
Definition externalChangeListener (this : t) (c : MemoryStorage.change) : t :=
  let key := MemoryStorage.key c in
  let value := MemoryStorage.value c in
  if JS.includes (JS.Object_keys (cache this)) key then
    if JS.is_null value then
      with_cache this (JS.prop_delete (cache this) key)
    else
      match merge this with
      | Some merge =>
          let this :=
            with_cache this
              (JS.prop_set (cache this) key
                 (merge key (JS.prop_get (cache this) key) value)) in
          flush this
      | None =>
          with_cache this (JS.prop_delete (cache this) key)
      end
  else this.

Definition onExternalChange (this : t) (listener : MemoryStorage.listener)
  : t * (MemoryStorage.shared -> MemoryStorage.shared) :=
  let (b, stopListening) :=
    MemoryStorage.onExternalChange (storage this) (backend this) listener in
  (with_backend this b, stopListening).

(** [start()]; [listener] is the reference of the arrow function created
    by this call, whose body is [externalChangeListener]. *)
Definition start (this : t) (listener : MemoryStorage.listener) : result t :=
  if _isStarted this then Throw AlreadyStarted
  else
    let this := with_isStarted this true in
    let this :=
      with_tabStatusWatcher this (TabStatusWatcher.start (tabStatusWatcher this)) in
    let (this, stopListening) := onExternalChange this listener in
    Ok (with_stopListening this (Some stopListening)).

Definition stop (this : t) : result t :=
  if negb (_isStarted this) then Throw NotStarted
  else
    let this := with_isStarted this false in
    let this := flush this in
    let this :=
      with_tabStatusWatcher this (TabStatusWatcher.stop (tabStatusWatcher this)) in
    match stopListeningToExternalChanges this with
    | Some stopListening => Ok (with_backend this (stopListening (backend this)))
    | None => Throw TypeError
    end.

Definition keys (this : t) : list string :=
  MemoryStorage.keys (storage this) (backend this).

Definition getRecordSize (this : t) (key : string) : result Z :=
  if JS.hasOwnProperty (cache this) key then
    MemoryStorage.stringified_length (JS.prop_get (cache this) key)
  else MemoryStorage.getRecordSize (storage this) (backend this) key.

Definition has (this : t) (key : string) : bool :=
  JS.hasOwnProperty (cache this) key
  || MemoryStorage.has (storage this) (backend this) key.

Definition get (this : t) (key : string) : JS.value :=
  if JS.hasOwnProperty (cache this) key then JS.prop_get (cache this) key
  else MemoryStorage.get (storage this) (backend this) key.

Fixpoint matches_any (matches : string -> string -> result bool)
    (key : string) (patterns : list string) : result bool :=
  match patterns with
  | [] => Ok false
  | pattern :: rest =>
      m <- matches key pattern ;;
      if m then Ok true else matches_any matches key rest
  end.

(** Falling off the end of the function returns [undefined], read as
    [false] by its caller. *)
Definition shouldCacheKey (this : t) (key : string) : result bool :=
  match cachedKeys this with
  | Some patterns => matches_any (matchesPattern this) key patterns
  | None => Ok false
  end.

Definition shouldCache (this : t) (key : string) : result bool :=
  if negb (TabStatusWatcher.isActive (tabStatusWatcher this)) then Ok false
  else
    cached <- shouldCacheKey this key ;;
    if negb cached then Ok false else Ok true.

Definition scheduleFlush (this : t) : t :=
  match flushTimer this with
  | None =>
      let (tm, h) := Timer.schedule (timer this) (flushDelay this) in
      with_flushTimer (with_timer this tm) (Some h)
  | Some _ => this
  end.

Definition set (this : t) (key : string) (value : JS.value) : result t :=
  if JS.is_undefined value then
    Ok (with_backend this (MemoryStorage.delete (storage this) (backend this) key))
  else
    cached <- shouldCache this key ;;
    if cached then
      let this := with_cache this (JS.prop_set (cache this) key value) in
      Ok (scheduleFlush this)
    else
      Ok (with_backend this
            (MemoryStorage.set (storage this) (backend this) key value)).

Definition delete (this : t) (key : string) : t :=
  let this :=
    if JS.hasOwnProperty (cache this) key
    then with_cache this (JS.prop_delete (cache this) key)
    else this in
  with_backend this (MemoryStorage.delete (storage this) (backend this) key).

Definition cacheKey (this : t) (pattern : string) : t :=
  with_cachedKeys this
    (Some (match cachedKeys this with
           | Some patterns => patterns
           | None => []
           end ++ [pattern])%list).

(** The timer runs the callback armed under [h], which is [flush]. *)
Definition timerFires (this : t) (h : Timer.handle) : t :=
  flush (with_timer this (Timer.cancel (timer this) h)).

(** The watcher reports that the tab is no longer active and runs its
    [onInactive] callback, which is [flush]. *)
Definition tabBecomesInactive (this : t) : t :=
  flush (with_tabStatusWatcher this
           (TabStatusWatcher.setActive (tabStatusWatcher this) false)).

End CachedStorage.

(** ** LocalStorage.helpers.js and LocalStorage.js *)

Module LocalStorage.

(** The items of the [localStorage] object of the page, each a key with its
    text.  [getItem] answers [null], here [None], for a key without item;
    [setItem] replaces the text of an item or adds an item; [key(i)] is the
    key of the item of index [i], or [null]. *)
Definition items : Type := list (string * string).

Fixpoint getItem (its : items) (k : string) : option string :=
  match its with
  | [] => None
  | (k', text) :: its' => if String.eqb k' k then Some text else getItem its' k
  end.

Fixpoint putItem (its : items) (k text : string) : items :=
  match its with
  | [] => [(k, text)]
  | (k', text') :: its' =>
      if String.eqb k' k then (k', text) :: its' else (k', text') :: putItem its' k text
  end.

Fixpoint removeItem (its : items) (k : string) : items :=
  match its with
  | [] => []
  | (k', text') :: its' =>
      if String.eqb k' k then removeItem its' k else (k', text') :: removeItem its' k
  end.

Definition key (its : items) (i : nat) : option string :=
  nth_error (map fst its) i.

(** What a call can throw: a [DOMException] with its [code], which may be
    missing, and its [name], or some other error. *)
Inductive exception : Type :=
| DOMException (code : option Z) (name : string)
| OtherError.

(** What the code takes from the platform it runs on: whether
    [DOMException] is defined there, when [setItem] refuses to store a text
    and with which exception, and what [JSON.parse] makes of a text, [None]
    being its [SyntaxError].  A refused [setItem] stores nothing. *)
Record platform : Type := Platform {
  DOMException_defined : bool;
  setItem_refuses : items -> string -> string -> option exception;
  JSON_parse : string -> option JS.value
}.

Definition setItem (pf : platform) (its : items) (k text : string)
  : items + exception :=
  match setItem_refuses pf its k text with
  | Some e => inr e
  | None => inl (putItem its k text)
  end.

Definition hasObject (its : items) (key : string) : bool :=
  match getItem its key with
  | Some _ => true
  | None => false
  end.

Definition getObject (pf : platform) (its : items) (key : string)
    (defaultValue : JS.value) : JS.value :=
  match getItem its key with
  | None => defaultValue
  | Some value =>
      match JSON_parse pf value with
      | Some parsed => parsed
      | None => defaultValue
      end
  end.

Definition deleteObject (its : items) (key : string) : items :=
  removeItem its key.

(** [setItem] turns the [undefined] that [JSON.stringify] may return into
    the text undefined. *)
Definition setObject (pf : platform) (its : items) (key : string) (value : JS.value)
  : items + exception :=
  if JS.is_undefined value then inl (deleteObject its key)
  else
    setItem pf its key
      (match JS.JSON_stringify value with
       | Some text => text
       | None => "undefined"
       end).

(** The loop of [getKeys]; [fuel] bounds the number of its turns. *)
Fixpoint getKeys_loop (its : items) (i fuel : nat) (keys : list (option string))
  : list (option string) :=
  match fuel with
  | O => keys
  | S fuel' =>
      if Nat.ltb i (List.length its)
      then getKeys_loop its (S i) fuel' (keys ++ [key its i])
      else keys
  end.

Definition getKeys (its : items) : list (option string) :=
  getKeys_loop its 0 (List.length its) [].

(** Falling off the end of the function returns [undefined], read as
    [false] by its callers. *)
Definition isQuotaExceededError (pf : platform) (error : exception) : bool :=
  if negb (DOMException_defined pf) then false
  else
    match error with
    | DOMException code name =>
        match code with Some c => c =? 22 | None => false end
        || match code with Some c => c =? 1014 | None => false end
        || String.eqb name "QuotaExceededError"
        || String.eqb name "NS_ERROR_DOM_QUOTA_REACHED"
    | OtherError => false
    end.

(** An instance: whether the [onFull] option was given. *)
Record t : Type := Make {
  onFull : bool
}.

(** How a call of [set] ends: it returns, it returns after having called
    [onFull({ error })], or it throws. *)
Inductive outcome : Type :=
| Returned (its : items)
| CalledOnFull (its : items) (error : exception)
| Thrown (error : exception).

Definition has (this : t) (its : items) (key : string) : bool :=
  hasObject its key.

Definition get (pf : platform) (this : t) (its : items) (key : string) : JS.value :=
  getObject pf its key JS.VNull.

Definition set (pf : platform) (this : t) (its : items) (key : string)
    (value : JS.value) : outcome :=
  match setObject pf its key value with
  | inl its' => Returned its'
  | inr error =>
      if isQuotaExceededError pf error then
        if onFull this then CalledOnFull its error else Thrown error
      else Thrown error
  end.

Definition delete (this : t) (its : items) (key : string) : items :=
  deleteObject its key.

Definition keys (this : t) (its : items) : list (option string) :=
  getKeys its.

Definition getRecordSize (this : t) (its : items) (key : string) : Z :=
  if negb (has this its key) then 0
  else
    let size := Z.of_nat (String.length key) in
    let size :=
      match getItem its key with
      | Some value => size + Z.of_nat (String.length value)
      | None => size
      end in
    size * 2.

End LocalStorage.

(** ** The vocabulary of the specification *)

(** The pattern contains an asterisk. *)
Definition contains_asterisk (pattern : string) : Prop :=
  exists i, String.get i pattern = Some "*"%char.

(** The only asterisk of the pattern is its final character. *)
Definition sole_final_asterisk (pattern : string) : Prop :=
  exists stem, pattern = stem ++ "*" /\ ~ contains_asterisk stem.

(** [value] starts with [stem]. *)
Definition starts_with (value stem : string) : Prop :=
  exists rest, value = stem ++ rest.

(** The key matches a registered pattern and no pattern registered before
    that one makes the matcher throw. *)
Definition matches_registered_pattern (this : CachedStorage.t) (key : string) : Prop :=
  exists before pattern after,
    CachedStorage.cachedKeys this = Some (before ++ pattern :: after)%list
    /\ CachedStorage.matchesPattern this key pattern = Ok true
    /\ Forall (fun p => exists m, CachedStorage.matchesPattern this key p = Ok m) before.

(** ** The life of a CachedStorage instance

    One step is a call of a public method that returns, or one of the events
    the instance reacts to: a change reported by the backend, the tab losing
    activity, the flush timer running.  The facades of other tabs may change
    the shared table and registry between two steps, the tab status may
    change and time may pass. *)
Inductive step : CachedStorage.t -> CachedStorage.t -> Prop :=
| step_start this listener this' :
    CachedStorage.start this listener = Ok this' -> step this this'
| step_stop this this' :
    CachedStorage.stop this = Ok this' -> step this this'
| step_set this key value this' :
    CachedStorage.set this key value = Ok this' -> step this this'
| step_delete this key :
    step this (CachedStorage.delete this key)
| step_flush this :
    step this (CachedStorage.flush this)
| step_cacheKey this pattern :
    step this (CachedStorage.cacheKey this pattern)
| step_onExternalChange this listener :
    step this (fst (CachedStorage.onExternalChange this listener))
| step_external_change this c :
    step this (CachedStorage.externalChangeListener this c)
| step_other_facade this b :
    step this (CachedStorage.with_backend this b)
| step_tab_status this active :
    step this
      (CachedStorage.with_tabStatusWatcher this
         (TabStatusWatcher.setActive (CachedStorage.tabStatusWatcher this) active))
| step_tab_inactive this :
    step this (CachedStorage.tabBecomesInactive this)
| step_time_passes this d :
    0 <= d ->
    step this
      (CachedStorage.with_timer this (Timer.advance (CachedStorage.timer this) d))
| step_timer_fires this h due :
    In (h, due) (Timer.scheduled (CachedStorage.timer this)) ->
    due <= Timer.now (CachedStorage.timer this) ->
    step this (CachedStorage.timerFires this h).

(** The states an instance built over a new timer can be in. *)
Inductive reachable : CachedStorage.t -> Prop :=
| reachable_new storage backend watcher time flushDelay merge matches cachedKeys this :
    CachedStorage.new storage backend watcher (Timer.new time)
      flushDelay merge matches cachedKeys = Ok this ->
    reachable this
| reachable_step this this' :
    reachable this -> step this this' -> reachable this'.

(** The timers armed by the instance: none when [flushTimer] is unset, and
    otherwise the single one whose handle [flushTimer] holds. *)
Definition one_timer (this : CachedStorage.t) : Prop :=
  match CachedStorage.flushTimer this with
  | Some h => exists due, Timer.scheduled (CachedStorage.timer this) = [(h, due)]
  | None => Timer.scheduled (CachedStorage.timer this) = []
  end.

(** ** A tab in the foreground

    The instance of the foreground test of the test suite: a
    [MemoryStorage] without identity whose table holds One under cached-key,
    wrapped with a delay of one minute and no [merge]; the instance has been
    started and its tab has become active.  The test then registers the
    pattern cached-*. *)
Definition active_tab : result CachedStorage.t :=
  let root := MemoryStorage.new None None in
  let storage := fst root in
  let table := MemoryStorage.set storage (snd root) "cached-key" (JS.VStr "One") in
  this <- CachedStorage.new storage table (TabStatusWatcher.Make false false)
            (Timer.new 0) (Some 60000) None None None ;;
  this <- CachedStorage.start this 0%nat ;;
  Ok (CachedStorage.with_tabStatusWatcher this
        (TabStatusWatcher.setActive (CachedStorage.tabStatusWatcher this) true)).

Definition example_active_tab : CachedStorage.t :=
  CachedStorage.Make
    (MemoryStorage.Facade None None)
    (MemoryStorage.Shared [("cached-key", JS.VStr "One")]
       [MemoryStorage.Registration None 0%nat] [])
    (TabStatusWatcher.Make true true) (Timer.new 0) None
    CachedStorage.defaultMatchesPattern 60000 None
    [] 0 None true (Some (MemoryStorage.unsubscribe 0%nat)).

Definition example_tab : CachedStorage.t :=
  CachedStorage.cacheKey example_active_tab "cached-*".

(** The [merge] option of the test suite: the concatenation of the cached
    and the external strings under cached-key, and [undefined] otherwise. *)
Definition concat_merge : CachedStorage.merge_fn :=
  fun key prevValue value =>
    if String.eqb key "cached-key" then
      match prevValue, value with
      | JS.VStr a, JS.VStr b => JS.VStr (a ++ b)
      | _, _ => JS.VUndefined
      end
    else JS.VUndefined.

(** The instance of the merging test at the moment facade 2 writes: facade 1
    has stored Zero under cached-key and the instance has cached One. *)
Definition merging_tab : result CachedStorage.t :=
  let root := MemoryStorage.new None None in
  storage <- MemoryStorage.createSharedInstance (fst root) (Some "1") ;;
  this <- CachedStorage.new storage (snd root) (TabStatusWatcher.Make false false)
            (Timer.new 0) (Some 60000) (Some concat_merge) None None ;;
  this <- CachedStorage.start this 0%nat ;;
  let this :=
    CachedStorage.with_tabStatusWatcher this
      (TabStatusWatcher.setActive (CachedStorage.tabStatusWatcher this) true) in
  let this := CachedStorage.cacheKey this "cached-*" in
  let this :=
    CachedStorage.with_backend this
      (MemoryStorage.set storage (CachedStorage.backend this) "cached-key"
         (JS.VStr "Zero")) in
  CachedStorage.set this "cached-key" (JS.VStr "One").

Definition example_merging_tab : CachedStorage.t :=
  CachedStorage.Make
    (MemoryStorage.Facade (Some "1") None)
    (MemoryStorage.Shared [("cached-key", JS.VStr "Zero")]
       [MemoryStorage.Registration (Some "1") 0%nat] [])
    (TabStatusWatcher.Make true true)
    (Timer.Make 0 2%positive [(1%positive, 60000)])
    (Some concat_merge)
    CachedStorage.defaultMatchesPattern 60000 (Some ["cached-*"])
    [("cached-key", JS.VStr "One")] 0 (Some 1%positive) true
    (Some (MemoryStorage.unsubscribe 0%nat)).

(** No cached value is [undefined]. *)
Definition cache_defined (this : CachedStorage.t) : Prop :=
  Forall (fun entry => snd entry <> JS.VUndefined) (CachedStorage.cache this).

(** A started instance holds the function that ends its listening, and
    such a function is one returned by [onExternalChange]. *)
Definition listening (this : CachedStorage.t) : Prop :=
  (CachedStorage._isStarted this = true ->
   CachedStorage.stopListeningToExternalChanges this <> None)
  /\ forall f, CachedStorage.stopListeningToExternalChanges this = Some f ->
               exists listener, f = MemoryStorage.unsubscribe listener.

(** Whatever is cached is waiting for an armed flush, due no later than
    [flushDelay] from now. *)
Definition flush_pending (this : CachedStorage.t) : Prop :=
  (CachedStorage.cache this <> [] -> CachedStorage.flushTimer this <> None)
  /\ forall e, In e (Timer.scheduled (CachedStorage.timer this)) ->
               snd e <= Timer.now (CachedStorage.timer this)
                        + CachedStorage.flushDelay this.

(** What the backend's [get] makes of a stored value. *)
Definition read_back (storage : MemoryStorage.t) (v : JS.value) : JS.value :=
  match MemoryStorage.stringifyStoredValues storage with
  | Some false => v
  | _ => JS.JSON_roundtrip v
  end.

(** * Properties *)

(** ** Strings *)

Lemma prefix_empty (s : string) : String.prefix EmptyString s = true.
Proof. destruct s; reflexivity. Qed.

Lemma prefix_starts_with (stem value : string) :
  String.prefix stem value = true <-> starts_with value stem.
Proof.
  revert value; induction stem as [|a stem IH]; intros value.
  - rewrite prefix_empty. split; [intros _; now exists value | reflexivity].
  - destruct value as [|b value]; simpl.
    + split; [discriminate | intros [rest H]; discriminate].
    + destruct (ascii_dec a b) as [->|Hab].
      * rewrite IH. split; intros [rest H]; exists rest.
        -- now rewrite H.
        -- now injection H.
      * split; [discriminate | intros [rest H]; injection H; congruence].
Qed.

Lemma indexOf_from_range (s sub : string) (k : Z) :
  JS.indexOf_from s sub k = -1 \/ k <= JS.indexOf_from s sub k.
Proof.
  revert k; induction s as [|a s IH]; intros k; cbn [JS.indexOf_from].
  - destruct (String.prefix sub EmptyString); [right; lia | now left].
  - destruct (String.prefix sub (String a s)); [right; lia|].
    destruct (IH (k + 1)) as [H|H]; [now left | right; lia].
Qed.

Lemma indexOf_zero (s sub : string) :
  (JS.indexOf s sub =? 0) = String.prefix sub s.
Proof.
  unfold JS.indexOf. destruct s as [|a s]; cbn [JS.indexOf_from].
  - now destruct (String.prefix sub EmptyString).
  - destruct (String.prefix sub (String a s)); [reflexivity|].
    destruct (indexOf_from_range s sub (0 + 1)) as [H|H]; rewrite ?H; lia.
Qed.

Lemma substring_stem (stem rest : string) :
  String.substring 0 (String.length stem) (stem ++ rest) = stem.
Proof.
  induction stem as [|a stem IH]; simpl.
  - now destruct rest.
  - now rewrite IH.
Qed.

Lemma length_append (s1 s2 : string) :
  String.length (s1 ++ s2) = (String.length s1 + String.length s2)%nat.
Proof. induction s1; simpl; congruence. Qed.

Lemma slice_stem (stem : string) :
  JS.slice (stem ++ "*") 0 (Z.of_nat (String.length stem)) = stem.
Proof.
  unfold JS.slice. rewrite length_append. simpl String.length.
  replace (0 <? 0) with false by reflexivity.
  destruct (Z.ltb_spec (Z.of_nat (String.length stem)) 0) as [E|E]; [lia|].
  replace (Z.min 0 _) with 0 by lia.
  replace (Z.to_nat (Z.max (Z.min _ _ - 0) 0)) with (String.length stem) by lia.
  apply substring_stem.
Qed.

(** Where [pattern.indexOf('*')] points. *)

Lemma indexOf_no_asterisk (pattern : string) (k : Z) :
  ~ contains_asterisk pattern -> JS.indexOf_from pattern "*" k = -1.
Proof.
  revert k; induction pattern as [|a p IH]; intros k H;
    cbn [JS.indexOf_from String.prefix]; [reflexivity|].
  destruct (ascii_dec "*" a) as [<-|Ha].
  - exfalso; apply H; now exists 0%nat.
  - apply IH. intros [i Hi]; apply H; now exists (S i).
Qed.

Lemma indexOf_first_asterisk (stem rest : string) (k : Z) :
  ~ contains_asterisk stem ->
  JS.indexOf_from (stem ++ String "*" rest) "*" k = k + Z.of_nat (String.length stem).
Proof.
  revert k; induction stem as [|a p IH]; intros k H.
  - cbn [append JS.indexOf_from String.prefix String.length].
    destruct (ascii_dec "*" "*") as [_|N]; [|congruence].
    rewrite prefix_empty. lia.
  - change ((String a p ++ String "*" rest)%string)
      with (String a (p ++ String "*" rest)).
    cbn [JS.indexOf_from String.prefix].
    destruct (ascii_dec "*" a) as [<-|Ha].
    + exfalso; apply H; now exists 0%nat.
    + rewrite IH; [cbn [String.length]; lia|].
      intros [i Hi]; apply H; now exists (S i).
Qed.

Lemma first_asterisk (pattern : string) :
  ~ contains_asterisk pattern
  \/ exists stem rest, pattern = stem ++ String "*" rest /\ ~ contains_asterisk stem.
Proof.
  induction pattern as [|a p IH].
  - left; intros [i Hi]; destruct i; discriminate.
  - destruct (ascii_dec a "*") as [->|Ha].
    + right; exists EmptyString, p; split; [reflexivity|].
      intros [i Hi]; destruct i; discriminate.
    + destruct IH as [IH|(stem & rest & -> & Hs)].
      * left; intros [[|i] Hi]; [simpl in Hi; congruence|].
        apply IH; now exists i.
      * right; exists (String a stem), rest; split; [reflexivity|].
        intros [[|i] Hi]; [simpl in Hi; congruence|].
        apply Hs; now exists i.
Qed.

Lemma asterisk_after_stem (stem rest : string) :
  contains_asterisk (stem ++ String "*" rest).
Proof.
  exists (String.length stem). induction stem; simpl; auto.
Qed.

Lemma get_append_left (s1 s2 : string) (i : nat) :
  (i < String.length s1)%nat -> String.get i (s1 ++ s2) = String.get i s1.
Proof.
  revert i; induction s1 as [|a s1 IH]; intros i Hi; simpl in *; [lia|].
  destruct i; [reflexivity|]. apply IH; lia.
Qed.

Lemma matchesPattern_no_asterisk (value pattern : string) :
  ~ contains_asterisk pattern ->
  matchesPattern value pattern = Ok (String.eqb value pattern).
Proof.
  intros H. unfold matchesPattern, JS.indexOf.
  now rewrite (indexOf_no_asterisk pattern 0 H).
Qed.

Lemma indexOf_asterisk (stem rest : string) :
  ~ contains_asterisk stem ->
  JS.indexOf (stem ++ String "*" rest) "*" = Z.of_nat (String.length stem).
Proof.
  intros H. unfold JS.indexOf. rewrite indexOf_first_asterisk by assumption. lia.
Qed.

Lemma matchesPattern_final_asterisk (value stem : string) :
  ~ contains_asterisk stem ->
  matchesPattern value (stem ++ "*") = Ok (String.prefix stem value).
Proof.
  intros H. unfold matchesPattern.
  rewrite (indexOf_asterisk stem EmptyString H), length_append.
  cbn [String.length]. rewrite Z.geb_leb.
  destruct (Z.leb_spec 0 (Z.of_nat (String.length stem))) as [E1|E1]; [|lia].
  destruct (Z.eqb_spec (Z.of_nat (String.length stem))
              (Z.of_nat (String.length stem + 1) - 1)) as [E2|E2]; [|lia].
  cbn [negb]. now rewrite slice_stem, indexOf_zero.
Qed.

Lemma matchesPattern_inner_asterisk (value stem rest : string) (c : ascii) :
  ~ contains_asterisk stem ->
  matchesPattern value (stem ++ String "*" (String c rest)) = Throw InvalidPattern.
Proof.
  intros H. unfold matchesPattern.
  rewrite (indexOf_asterisk stem (String c rest) H), length_append.
  cbn [String.length]. rewrite Z.geb_leb.
  destruct (Z.leb_spec 0 (Z.of_nat (String.length stem))) as [E1|E1]; [|lia].
  destruct (Z.eqb_spec (Z.of_nat (String.length stem))
              (Z.of_nat (String.length stem + S (S (String.length rest))) - 1))
    as [E2|E2]; [lia | reflexivity].
Qed.

Lemma inner_asterisk_not_sole_final (stem rest : string) (c : ascii) :
  ~ sole_final_asterisk (stem ++ String "*" (String c rest)).
Proof.
  intros (stem' & E & H'). apply H'. exists (String.length stem).
  assert (L : String.length (stem ++ String "*" (String c rest))
              = String.length (stem' ++ "*")) by now rewrite E.
  rewrite !length_append in L. cbn [String.length] in L.
  rewrite <- (get_append_left stem' "*") by lia.
  rewrite <- E. clear. induction stem; simpl; auto.
Qed.

(** C8.  [matchesPattern(value, pattern)]: without an asterisk in the pattern
    the result is [true] exactly when the value equals the pattern; when the
    only asterisk is the final character the result is [true] exactly when
    the value starts with what precedes the asterisk; the call throws
    [InvalidPattern] exactly when the pattern contains an asterisk and its
    only asterisk is not the final character; and the listed examples
    evaluate as stated. *)
Theorem C8_matchesPattern_contract :
  (forall value pattern : string,
      (~ contains_asterisk pattern ->
       exists b, matchesPattern value pattern = Ok b
                 /\ (b = true <-> value = pattern))
      /\ (forall stem, pattern = stem ++ "*" -> ~ contains_asterisk stem ->
          exists b, matchesPattern value pattern = Ok b
                    /\ (b = true <-> starts_with value stem))
      /\ (matchesPattern value pattern = Throw InvalidPattern
          <-> contains_asterisk pattern /\ ~ sole_final_asterisk pattern))
  /\ matchesPattern "ab" "ab*" = Ok true
  /\ matchesPattern "abc" "ab*" = Ok true
  /\ matchesPattern "abcd" "ab*" = Ok true
  /\ matchesPattern "ab" "abc*" = Ok false
  /\ matchesPattern "abc" "a*bc" = Throw InvalidPattern
  /\ matchesPattern "abc" "a**" = Throw InvalidPattern.
Proof.
  split; [|repeat split; reflexivity].
  intros value pattern. split; [|split].
  - intros H. exists (String.eqb value pattern). split.
    + now apply matchesPattern_no_asterisk.
    + apply String.eqb_eq.
  - intros stem -> H. exists (String.prefix stem value). split.
    + now apply matchesPattern_final_asterisk.
    + apply prefix_starts_with.
  - destruct (first_asterisk pattern) as [H|(stem & rest & -> & H)].
    + rewrite (matchesPattern_no_asterisk value pattern H). split.
      * discriminate.
      * intros [C _]; contradiction.
    + destruct rest as [|c rest].
      * rewrite (matchesPattern_final_asterisk value stem H). split.
        -- discriminate.
        -- intros [_ N]. exfalso; apply N. now exists stem.
      * rewrite (matchesPattern_inner_asterisk value stem rest c H). split.
        -- intros _. split.
           ++ apply asterisk_after_stem.
           ++ apply inner_asterisk_not_sole_final.
        -- reflexivity.
Qed.

(** ** Objects used as tables *)

Lemma hasOwnProperty_set (o : JS.object) (k k' : string) (v : JS.value) :
  JS.hasOwnProperty (JS.prop_set o k v) k'
  = if String.eqb k k' then true else JS.hasOwnProperty o k'.
Proof.
  induction o as [|[k0 v0] o IH]; cbn [JS.prop_set JS.hasOwnProperty].
  - reflexivity.
  - destruct (String.eqb_spec k0 k) as [->|N]; cbn [JS.hasOwnProperty].
    + destruct (String.eqb_spec k k'); reflexivity.
    + rewrite IH. destruct (String.eqb_spec k0 k') as [->|];
        destruct (String.eqb_spec k k'); reflexivity.
Qed.

Lemma prop_get_set (o : JS.object) (k k' : string) (v : JS.value) :
  JS.prop_get (JS.prop_set o k v) k'
  = if String.eqb k k' then v else JS.prop_get o k'.
Proof.
  induction o as [|[k0 v0] o IH]; cbn [JS.prop_set JS.prop_get].
  - reflexivity.
  - destruct (String.eqb_spec k0 k) as [->|N]; cbn [JS.prop_get].
    + destruct (String.eqb_spec k k'); reflexivity.
    + rewrite IH. destruct (String.eqb_spec k0 k') as [->|];
        destruct (String.eqb_spec k k'); congruence.
Qed.

Lemma hasOwnProperty_delete (o : JS.object) (k k' : string) :
  JS.hasOwnProperty (JS.prop_delete o k) k'
  = if String.eqb k k' then false else JS.hasOwnProperty o k'.
Proof.
  induction o as [|[k0 v0] o IH]; cbn [JS.prop_delete JS.hasOwnProperty].
  - now destruct (String.eqb k k').
  - destruct (String.eqb_spec k0 k) as [->|N]; cbn [JS.hasOwnProperty]; rewrite IH.
    + destruct (String.eqb_spec k k'); reflexivity.
    + destruct (String.eqb_spec k0 k') as [->|];
        destruct (String.eqb_spec k k'); congruence.
Qed.

Lemma prop_get_delete (o : JS.object) (k k' : string) :
  JS.prop_get (JS.prop_delete o k) k'
  = if String.eqb k k' then JS.VUndefined else JS.prop_get o k'.
Proof.
  induction o as [|[k0 v0] o IH]; cbn [JS.prop_delete JS.prop_get].
  - now destruct (String.eqb k k').
  - destruct (String.eqb_spec k0 k) as [->|N]; cbn [JS.prop_get]; rewrite IH.
    + destruct (String.eqb_spec k k'); reflexivity.
    + destruct (String.eqb_spec k0 k') as [->|];
        destruct (String.eqb_spec k k'); congruence.
Qed.

Lemma hasOwnProperty_In (o : JS.object) (k : string) :
  JS.hasOwnProperty o k = true <-> In k (map fst o).
Proof.
  induction o as [|[k0 v0] o IH]; cbn [JS.hasOwnProperty map fst In].
  - split; [discriminate | contradiction].
  - destruct (String.eqb_spec k0 k) as [->|N].
    + split; auto.
    + rewrite IH. split; [auto | intros [E|H]; [contradiction | exact H]].
Qed.

Lemma insert_index_In (x y : N * string) (l : list (N * string)) :
  In x (JS.insert_index y l) <-> x = y \/ In x l.
Proof.
  induction l as [|z l IH]; cbn [JS.insert_index In].
  - split; intros [H|H]; auto.
  - destruct (fst y <=? fst z)%N; cbn [In].
    + split; intros [H|H]; auto.
    + rewrite IH. split; intros H; decompose [or] H; auto.
Qed.

Lemma index_keys_In (ks : list string) (n : N) (k : string) :
  In (n, k) (JS.index_keys ks) <-> In k ks /\ JS.array_index k = Some n.
Proof.
  induction ks as [|k0 ks IH]; cbn [JS.index_keys In].
  - split; [contradiction | intros [[] _]].
  - destruct (JS.array_index k0) as [n0|] eqn:E.
    + rewrite insert_index_In, IH. split.
      * intros [H|[H1 H2]]; [injection H as -> -> | ]; auto.
      * intros [[->|H1] H2]; [left; congruence | right; auto].
    + rewrite IH. split.
      * intros [H1 H2]; auto.
      * intros [[->|H1] H2]; [congruence | auto].
Qed.

Lemma Object_keys_In (o : JS.object) (k : string) :
  In k (JS.Object_keys o) <-> In k (map fst o).
Proof.
  unfold JS.Object_keys, JS.named_keys.
  rewrite in_app_iff, in_map_iff, filter_In. split.
  - intros [([n k'] & E & H)|[H _]]; [|exact H].
    cbn [snd] in E; subst k'. now apply index_keys_In in H.
  - intros H. destruct (JS.array_index k) as [n|] eqn:E.
    + left. exists (n, k). split; [reflexivity|]. now apply index_keys_In.
    + right. split; [exact H | reflexivity].
Qed.

Lemma includes_In (ks : list string) (k : string) :
  JS.includes ks k = true <-> In k ks.
Proof.
  unfold JS.includes. rewrite existsb_exists. split.
  - intros (x & H & E). apply String.eqb_eq in E. now subst.
  - intros H. exists k. split; [exact H | apply String.eqb_refl].
Qed.

Lemma includes_Object_keys (o : JS.object) (k : string) :
  JS.includes (JS.Object_keys o) k = JS.hasOwnProperty o k.
Proof.
  apply eq_true_iff_eq.
  now rewrite includes_In, Object_keys_In, hasOwnProperty_In.
Qed.

Lemma stringify_defined (v : JS.value) :
  JS.JSON_stringify v = None <-> v = JS.VUndefined.
Proof. destruct v as [| |[]| | | |]; cbn; split; congruence. Qed.

(** ** MemoryStorage *)

Lemma trigger_data (this : MemoryStorage.t) (st : MemoryStorage.shared)
    (c : MemoryStorage.change) :
  MemoryStorage.data (MemoryStorage.triggerExternalChangeListeners this st c)
  = MemoryStorage.data st.
Proof.
  unfold MemoryStorage.triggerExternalChangeListeners.
  now destruct (MemoryStorage.id this).
Qed.

Lemma trigger_listeners (this : MemoryStorage.t) (st : MemoryStorage.shared)
    (c : MemoryStorage.change) :
  MemoryStorage.externalChangeListeners
    (MemoryStorage.triggerExternalChangeListeners this st c)
  = MemoryStorage.externalChangeListeners st.
Proof.
  unfold MemoryStorage.triggerExternalChangeListeners.
  now destruct (MemoryStorage.id this).
Qed.

Lemma set_data (this : MemoryStorage.t) (st : MemoryStorage.shared)
    (key : string) (value : JS.value) :
  MemoryStorage.data (MemoryStorage.set this st key value)
  = JS.prop_set (MemoryStorage.data st) key value.
Proof. unfold MemoryStorage.set. now rewrite trigger_data. Qed.

Lemma delete_data (this : MemoryStorage.t) (st : MemoryStorage.shared)
    (key : string) :
  MemoryStorage.data (MemoryStorage.delete this st key)
  = JS.prop_delete (MemoryStorage.data st) key.
Proof. unfold MemoryStorage.delete. now rewrite trigger_data. Qed.

Lemma set_listeners (this : MemoryStorage.t) (st : MemoryStorage.shared)
    (key : string) (value : JS.value) :
  MemoryStorage.externalChangeListeners (MemoryStorage.set this st key value)
  = MemoryStorage.externalChangeListeners st.
Proof. unfold MemoryStorage.set. now rewrite trigger_listeners. Qed.

Lemma notify_In (this_id : string) (regs : list MemoryStorage.registration)
    (c : MemoryStorage.change) (x : MemoryStorage.call) :
  In x (MemoryStorage.notify this_id regs c)
  <-> MemoryStorage.payload x = c
      /\ In (MemoryStorage.callee x) regs
      /\ exists sid, MemoryStorage.storageId (MemoryStorage.callee x) = Some sid
                     /\ sid <> this_id.
Proof.
  induction regs as [|r regs IH]; cbn [MemoryStorage.notify In].
  - split; [contradiction | intros (_ & [] & _)].
  - destruct (MemoryStorage.storageId r) as [sid|] eqn:E.
    + destruct (String.eqb_spec sid this_id) as [->|N]; cbn [negb In]; rewrite IH.
      * split; [intros (P & H & S); auto|].
        intros (P & [->|H] & sid & S & N); [congruence | eauto].
      * split.
        -- intros [<-|(P & H & S)]; cbn; eauto 6.
        -- intros (P & [->|H] & S); [left; destruct x; cbn in *; congruence | eauto].
    + rewrite IH. split; [intros (P & H & S); auto|].
      intros (P & [->|H] & sid & S & N); [congruence | eauto].
Qed.

Lemma trigger_calls (this : MemoryStorage.t) (st : MemoryStorage.shared)
    (c : MemoryStorage.change) :
  MemoryStorage.calls (MemoryStorage.triggerExternalChangeListeners this st c)
  = (MemoryStorage.calls st
     ++ match MemoryStorage.id this with
        | Some this_id =>
            MemoryStorage.notify this_id (MemoryStorage.externalChangeListeners st) c
        | None => []
        end)%list.
Proof.
  unfold MemoryStorage.triggerExternalChangeListeners.
  destruct (MemoryStorage.id this); cbn; [reflexivity | now rewrite app_nil_r].
Qed.

(** What one [triggerExternalChangeListeners] call invokes. *)
Lemma trigger_invokes (this : MemoryStorage.t) (st : MemoryStorage.shared)
    (c : MemoryStorage.change) :
  exists invoked,
    MemoryStorage.calls (MemoryStorage.triggerExternalChangeListeners this st c)
    = (MemoryStorage.calls st ++ invoked)%list
    /\ (forall x, In x invoked ->
          In (MemoryStorage.callee x) (MemoryStorage.externalChangeListeners st)
          /\ MemoryStorage.storageId (MemoryStorage.callee x) <> MemoryStorage.id this
          /\ MemoryStorage.storageId (MemoryStorage.callee x) <> None)
    /\ (MemoryStorage.id this = None -> invoked = [])
    /\ (forall r sid this_id,
          In r (MemoryStorage.externalChangeListeners st) ->
          MemoryStorage.storageId r = Some sid ->
          MemoryStorage.id this = Some this_id ->
          sid <> this_id ->
          In (MemoryStorage.Call r c) invoked).
Proof.
  rewrite trigger_calls. eexists; split; [reflexivity|].
  destruct (MemoryStorage.id this) as [this_id|]; repeat split;
    try contradiction; try discriminate.
  - now apply notify_In in H.
  - apply notify_In in H. destruct H as (_ & _ & sid & -> & N). congruence.
  - apply notify_In in H. destruct H as (_ & _ & sid & -> & N). congruence.
  - intros r sid me H S [= <-] N. apply notify_In. cbn. eauto.
Qed.

(** C4.  A [set] or a [delete] through a facade invokes only listeners of the
    registry that were registered under an identity, and under an identity
    other than the facade's own; a facade without identity invokes none; and
    every registration under another identity is invoked with the change. *)
Theorem C4_bus_skips_own_identity :
  forall (this : MemoryStorage.t) (st : MemoryStorage.shared)
         (key : string) (value : JS.value),
  exists by_set by_delete : list MemoryStorage.call,
    MemoryStorage.calls (MemoryStorage.set this st key value)
    = (MemoryStorage.calls st ++ by_set)%list
    /\ MemoryStorage.calls (MemoryStorage.delete this st key)
       = (MemoryStorage.calls st ++ by_delete)%list
    /\ (forall x, In x (by_set ++ by_delete)%list ->
          In (MemoryStorage.callee x) (MemoryStorage.externalChangeListeners st)
          /\ MemoryStorage.storageId (MemoryStorage.callee x) <> MemoryStorage.id this
          /\ MemoryStorage.storageId (MemoryStorage.callee x) <> None)
    /\ (MemoryStorage.id this = None -> by_set = [] /\ by_delete = [])
    /\ (forall r sid this_id,
          In r (MemoryStorage.externalChangeListeners st) ->
          MemoryStorage.storageId r = Some sid ->
          MemoryStorage.id this = Some this_id ->
          sid <> this_id ->
          In (MemoryStorage.Call r
                (MemoryStorage.Change key value (MemoryStorage.get this st key)))
             by_set
          /\ In (MemoryStorage.Call r
                   (MemoryStorage.Change key JS.VNull (MemoryStorage.get this st key)))
                by_delete).
Proof.
  intros this st key value. unfold MemoryStorage.set, MemoryStorage.delete.
  set (c1 := MemoryStorage.Change key value _).
  set (c2 := MemoryStorage.Change key JS.VNull _).
  destruct (trigger_invokes this
              (MemoryStorage.Shared (JS.prop_set (MemoryStorage.data st) key value)
                 (MemoryStorage.externalChangeListeners st) (MemoryStorage.calls st)) c1)
    as (s & Es & Hs & Ns & Cs).
  destruct (trigger_invokes this
              (MemoryStorage.Shared (JS.prop_delete (MemoryStorage.data st) key)
                 (MemoryStorage.externalChangeListeners st) (MemoryStorage.calls st)) c2)
    as (d & Ed & Hd & Nd & Cd).
  exists s, d. cbn in *. repeat split; auto.
  - apply in_app_or in H. destruct H as [H|H]; [now apply Hs | now apply Hd].
  - apply in_app_or in H. destruct H as [H|H]; [now apply Hs | now apply Hd].
  - apply in_app_or in H. destruct H as [H|H]; [now apply Hs | now apply Hd].
  - eapply Cs; eauto.
  - eapply Cd; eauto.
Qed.


(** The registry after [onExternalChange] and after the function it returns. *)
Lemma unsubscribe_In (listener : MemoryStorage.listener)
    (st : MemoryStorage.shared) (r : MemoryStorage.registration) :
  In r (MemoryStorage.externalChangeListeners (MemoryStorage.unsubscribe listener st))
  <-> In r (MemoryStorage.externalChangeListeners st)
      /\ MemoryStorage.listener_fn r <> listener.
Proof.
  unfold MemoryStorage.unsubscribe. cbn. rewrite filter_In.
  destruct (Nat.eqb_spec (MemoryStorage.listener_fn r) listener); cbn; intuition congruence.
Qed.

(** The registry around [onExternalChange(listener)]: the call appends the
    pair of the facade's identity and the listener and leaves the table
    alone; the function it returns filters the registry, as it then stands, by
    the listener function alone, so that exactly the registrations of other
    listener functions are kept, in place, and a later change reaches exactly
    the kept registrations it reached before. *)
Lemma unsubscribe_filters_by_listener :
  forall (this : MemoryStorage.t) (st : MemoryStorage.shared)
         (listener : MemoryStorage.listener),
    let registered := fst (MemoryStorage.onExternalChange this st listener) in
    let unsubscribe := snd (MemoryStorage.onExternalChange this st listener) in
    MemoryStorage.externalChangeListeners registered
    = (MemoryStorage.externalChangeListeners st
       ++ [MemoryStorage.Registration (MemoryStorage.id this) listener])%list
    /\ MemoryStorage.data registered = MemoryStorage.data st
    /\ forall later : MemoryStorage.shared,
         MemoryStorage.externalChangeListeners (unsubscribe later)
         = filter (fun r => negb (Nat.eqb (MemoryStorage.listener_fn r) listener))
                  (MemoryStorage.externalChangeListeners later)
         /\ MemoryStorage.data (unsubscribe later) = MemoryStorage.data later
         /\ (forall r,
               In r (MemoryStorage.externalChangeListeners (unsubscribe later))
               <-> In r (MemoryStorage.externalChangeListeners later)
                   /\ MemoryStorage.listener_fn r <> listener)
         /\ (forall writer c x,
               In x (MemoryStorage.notify writer
                       (MemoryStorage.externalChangeListeners (unsubscribe later)) c)
               <-> In x (MemoryStorage.notify writer
                           (MemoryStorage.externalChangeListeners later) c)
                   /\ MemoryStorage.listener_fn (MemoryStorage.callee x) <> listener).
Proof.
  intros this st listener. unfold MemoryStorage.onExternalChange. cbn [fst snd].
  split; [reflexivity|]. split; [reflexivity|]. intros later.
  split; [reflexivity|]. split; [reflexivity|]. split.
  - intros r. apply unsubscribe_In.
  - intros writer c x. rewrite !notify_In, unsubscribe_In. tauto.
Qed.

(** C6, where the code departs from the claim.  The same listener function
    is registered through the facades of identities 1 and 2, and a write by
    identity 3 reaches both registrations.  Calling the function returned to
    facade 1 empties the registry, so that a later write by identity 3 no
    longer reaches the registration made under identity 2.  Likewise, of two
    registrations of one listener on facade 1, the function returned by the
    first removes both. *)
Lemma C6_unsubscribe_removes_other_registrations :
  let f1 := MemoryStorage.Facade (Some "1") None in
  let f2 := MemoryStorage.Facade (Some "2") None in
  let f3 := MemoryStorage.Facade (Some "3") None in
  let listener := 7%nat in
  let st0 := MemoryStorage.Shared [] [] [] in
  let st1 := fst (MemoryStorage.onExternalChange f1 st0 listener) in
  let unsubscribe1 := snd (MemoryStorage.onExternalChange f1 st0 listener) in
  let st2 := fst (MemoryStorage.onExternalChange f2 st1 listener) in
  let twice := fst (MemoryStorage.onExternalChange f1 st1 listener) in
  MemoryStorage.externalChangeListeners st2
  = [MemoryStorage.Registration (Some "1") listener;
     MemoryStorage.Registration (Some "2") listener]
  /\ MemoryStorage.calls (MemoryStorage.set f3 st2 "x" (JS.VStr "v"))
     = [MemoryStorage.Call (MemoryStorage.Registration (Some "1") listener)
          (MemoryStorage.Change "x" (JS.VStr "v") JS.VNull);
        MemoryStorage.Call (MemoryStorage.Registration (Some "2") listener)
          (MemoryStorage.Change "x" (JS.VStr "v") JS.VNull)]
  /\ MemoryStorage.externalChangeListeners (unsubscribe1 st2) = []
  /\ MemoryStorage.calls (MemoryStorage.set f3 (unsubscribe1 st2) "x" (JS.VStr "v")) = []
  /\ MemoryStorage.externalChangeListeners twice
     = [MemoryStorage.Registration (Some "1") listener;
        MemoryStorage.Registration (Some "1") listener]
  /\ MemoryStorage.externalChangeListeners (unsubscribe1 twice) = [].
Proof. repeat split. Qed.


(** ** CachedStorage: flushing *)

Lemma write_back_fold (s : MemoryStorage.t) (c : JS.object) (ks : list string)
    (b : MemoryStorage.shared) (k : string) :
  let b' := fold_left (fun b key => MemoryStorage.set s b key (JS.prop_get c key)) ks b in
  JS.prop_get (MemoryStorage.data b') k
  = (if JS.includes ks k then JS.prop_get c k else JS.prop_get (MemoryStorage.data b) k)
  /\ JS.hasOwnProperty (MemoryStorage.data b') k
     = (JS.includes ks k || JS.hasOwnProperty (MemoryStorage.data b) k)
  /\ MemoryStorage.externalChangeListeners b' = MemoryStorage.externalChangeListeners b.
Proof.
  cbv zeta. revert b; induction ks as [|k0 ks IH]; intros b; cbn [fold_left].
  - now cbn.
  - destruct (IH (MemoryStorage.set s b k0 (JS.prop_get c k0))) as (G & H & L).
    rewrite G, H, L, set_data, set_listeners, prop_get_set, hasOwnProperty_set.
    unfold JS.includes; cbn [existsb]. fold (JS.includes ks k).
    rewrite (String.eqb_sym k k0).
    destruct (String.eqb_spec k0 k) as [->|N]; cbn [orb];
      destruct (JS.includes ks k); auto.
Qed.

Lemma flush_cache (this : CachedStorage.t) :
  CachedStorage.cache (CachedStorage.flush this) = [].
Proof.
  unfold CachedStorage.flush. cbn. now destruct (CachedStorage.flushTimer this).
Qed.

Lemma flush_backend (this : CachedStorage.t) :
  CachedStorage.backend (CachedStorage.flush this)
  = CachedStorage.write_back this (JS.Object_keys (CachedStorage.cache this)).
Proof.
  unfold CachedStorage.flush. cbn. now destruct (CachedStorage.flushTimer this).
Qed.

Lemma flush_flushTimer (this : CachedStorage.t) :
  CachedStorage.flushTimer (CachedStorage.flush this) = None.
Proof.
  unfold CachedStorage.flush. cbn.
  now destruct (CachedStorage.flushTimer this) eqn:E.
Qed.

Lemma flush_timer (this : CachedStorage.t) :
  CachedStorage.timer (CachedStorage.flush this)
  = match CachedStorage.flushTimer this with
    | Some h => Timer.cancel (CachedStorage.timer this) h
    | None => CachedStorage.timer this
    end.
Proof.
  unfold CachedStorage.flush. cbn. now destruct (CachedStorage.flushTimer this).
Qed.

Lemma flush_previouslyFlushedAt (this : CachedStorage.t) :
  CachedStorage.previouslyFlushedAt (CachedStorage.flush this)
  = Timer.now (CachedStorage.timer this).
Proof.
  unfold CachedStorage.flush. cbn. now destruct (CachedStorage.flushTimer this).
Qed.

Lemma flush_storage (this : CachedStorage.t) :
  CachedStorage.storage (CachedStorage.flush this) = CachedStorage.storage this.
Proof.
  unfold CachedStorage.flush. cbn. now destruct (CachedStorage.flushTimer this).
Qed.

(** Flushing an empty cache. *)
Lemma flush_empty (this : CachedStorage.t) :
  CachedStorage.cache this = [] ->
  CachedStorage.flush this
  = CachedStorage.with_flushTimer
      (CachedStorage.with_timer
         (CachedStorage.with_previouslyFlushedAt this
            (Timer.now (CachedStorage.timer this)))
         match CachedStorage.flushTimer this with
         | Some h => Timer.cancel (CachedStorage.timer this) h
         | None => CachedStorage.timer this
         end)
      None.
Proof.
  destruct this as [s b w tm m mp d ck c pf ft st sl]. cbn. intros ->.
  unfold CachedStorage.flush. cbn. now destruct ft.
Qed.

(** What a flush leaves in the table of the backend. *)
Lemma flush_writes (this : CachedStorage.t) (k : string) :
  JS.prop_get (MemoryStorage.data (CachedStorage.backend (CachedStorage.flush this))) k
  = (if JS.hasOwnProperty (CachedStorage.cache this) k
     then JS.prop_get (CachedStorage.cache this) k
     else JS.prop_get (MemoryStorage.data (CachedStorage.backend this)) k)
  /\ JS.hasOwnProperty
       (MemoryStorage.data (CachedStorage.backend (CachedStorage.flush this))) k
     = (JS.hasOwnProperty (CachedStorage.cache this) k
        || JS.hasOwnProperty (MemoryStorage.data (CachedStorage.backend this)) k).
Proof.
  rewrite flush_backend. unfold CachedStorage.write_back.
  destruct (write_back_fold (CachedStorage.storage this) (CachedStorage.cache this)
              (JS.Object_keys (CachedStorage.cache this))
              (CachedStorage.backend this) k) as (G & H & _).
  now rewrite G, H, includes_Object_keys.
Qed.

(** C9.  A second [flush] right after a first leaves the backend, with its
    table, its registry and the listener invocations made, as the first left
    it, and indeed the whole instance.  Flushing an empty cache leaves the
    backend untouched: it only records the time of the flush, cancels the
    timer held in [flushTimer] and unsets [flushTimer]. *)
Theorem C9_flush_idempotent :
  forall this : CachedStorage.t,
    CachedStorage.backend (CachedStorage.flush (CachedStorage.flush this))
    = CachedStorage.backend (CachedStorage.flush this)
    /\ CachedStorage.flush (CachedStorage.flush this) = CachedStorage.flush this
    /\ (CachedStorage.cache this = [] ->
        CachedStorage.backend (CachedStorage.flush this) = CachedStorage.backend this
        /\ CachedStorage.flush this
           = CachedStorage.with_flushTimer
               (CachedStorage.with_timer
                  (CachedStorage.with_previouslyFlushedAt this
                     (Timer.now (CachedStorage.timer this)))
                  match CachedStorage.flushTimer this with
                  | Some h => Timer.cancel (CachedStorage.timer this) h
                  | None => CachedStorage.timer this
                  end)
               None).
Proof.
  intros this.
  assert (E : CachedStorage.flush (CachedStorage.flush this) = CachedStorage.flush this).
  { rewrite (flush_empty (CachedStorage.flush this) (flush_cache this)).
    rewrite flush_flushTimer.
    destruct this as [s b w tm m mp d ck c pf ft st sl].
    unfold CachedStorage.flush. cbn. now destruct ft. }
  split; [now rewrite E|]. split; [exact E|].
  intros H. split; [|now apply flush_empty].
  rewrite flush_backend, H. reflexivity.
Qed.

(** ** CachedStorage: changes made by other tabs *)

Lemma is_null_true (v : JS.value) : JS.is_null v = true <-> v = JS.VNull.
Proof. destruct v; cbn; split; congruence. Qed.

Lemma is_undefined_true (v : JS.value) : JS.is_undefined v = true <-> v = JS.VUndefined.
Proof. destruct v; cbn; split; congruence. Qed.


(** ** CachedStorage: which writes are cached *)

Lemma matches_any_registered (matches : string -> string -> result bool)
    (key : string) (before : list string) (pattern : string) (after : list string) :
  matches key pattern = Ok true ->
  Forall (fun p => exists m, matches key p = Ok m) before ->
  CachedStorage.matches_any matches key (before ++ pattern :: after) = Ok true.
Proof.
  intros M. induction 1 as [|p before [m Hp] _ IH]; cbn.
  - now rewrite M.
  - rewrite Hp. cbn. now destruct m.
Qed.

Lemma shouldCache_registered (this : CachedStorage.t) (key : string) :
  TabStatusWatcher.isActive (CachedStorage.tabStatusWatcher this) = true ->
  matches_registered_pattern this key ->
  CachedStorage.shouldCache this key = Ok true.
Proof.
  intros A (before & pattern & after & K & M & F).
  unfold CachedStorage.shouldCache, CachedStorage.shouldCacheKey.
  now rewrite A, K, (matches_any_registered _ _ _ _ _ M F).
Qed.

Lemma scheduleFlush_frame (this : CachedStorage.t) :
  CachedStorage.backend (CachedStorage.scheduleFlush this) = CachedStorage.backend this
  /\ CachedStorage.cache (CachedStorage.scheduleFlush this) = CachedStorage.cache this
  /\ CachedStorage.storage (CachedStorage.scheduleFlush this) = CachedStorage.storage this.
Proof.
  unfold CachedStorage.scheduleFlush.
  now destruct (CachedStorage.flushTimer this).
Qed.



Example active_tab_state : active_tab = Ok example_active_tab.
Proof. reflexivity. Qed.


(** ** CachedStorage: the flush timer *)

Lemma flush_disarms (this : CachedStorage.t) :
  (forall e, In e (Timer.scheduled (CachedStorage.timer this)) ->
             CachedStorage.flushTimer this = Some (fst e)) ->
  one_timer (CachedStorage.flush this).
Proof.
  intros H. unfold one_timer. rewrite flush_flushTimer, flush_timer.
  destruct (CachedStorage.flushTimer this) as [h|].
  - unfold Timer.cancel. cbn [Timer.scheduled].
    induction (Timer.scheduled (CachedStorage.timer this)) as [|e l IH];
      [reflexivity|].
    cbn [filter]. assert (E : Some h = Some (fst e)) by (apply H; now left).
    injection E as ->. rewrite Pos.eqb_refl. cbn [negb].
    apply IH. intros e' He'. apply H. now right.
  - destruct (Timer.scheduled (CachedStorage.timer this)) as [|e l];
      [reflexivity|]. discriminate (H e (or_introl eq_refl)).
Qed.

Lemma one_timer_entries (this : CachedStorage.t) :
  one_timer this ->
  forall e, In e (Timer.scheduled (CachedStorage.timer this)) ->
            CachedStorage.flushTimer this = Some (fst e).
Proof.
  unfold one_timer. intros H e He.
  destruct (CachedStorage.flushTimer this) as [h|].
  - destruct H as [due H]. rewrite H in He. destruct He as [<-|[]]. reflexivity.
  - rewrite H in He. destruct He.
Qed.

Lemma one_timer_flush (this : CachedStorage.t) :
  one_timer this -> one_timer (CachedStorage.flush this).
Proof. intros H. apply flush_disarms, one_timer_entries, H. Qed.

Lemma one_timer_frame (this this' : CachedStorage.t) :
  Timer.scheduled (CachedStorage.timer this')
  = Timer.scheduled (CachedStorage.timer this) ->
  CachedStorage.flushTimer this' = CachedStorage.flushTimer this ->
  one_timer this -> one_timer this'.
Proof. unfold one_timer. now intros -> ->. Qed.

Lemma one_timer_scheduleFlush (this : CachedStorage.t) :
  one_timer this -> one_timer (CachedStorage.scheduleFlush this).
Proof.
  unfold one_timer, CachedStorage.scheduleFlush.
  destruct (CachedStorage.flushTimer this) as [h|] eqn:E.
  - now rewrite E.
  - intros H. cbn. rewrite H. now eexists.
Qed.

Lemma one_timer_set (this this' : CachedStorage.t) (key : string) (value : JS.value) :
  CachedStorage.set this key value = Ok this' -> one_timer this -> one_timer this'.
Proof.
  unfold CachedStorage.set. intros S H.
  destruct (JS.is_undefined value).
  - injection S as <-. exact H.
  - destruct (CachedStorage.shouldCache this key) as [[]|]; cbn in S;
      [| |discriminate]; injection S as <-.
    + apply one_timer_scheduleFlush. exact H.
    + exact H.
Qed.

Lemma one_timer_step (this this' : CachedStorage.t) :
  step this this' -> one_timer this -> one_timer this'.
Proof.
  intros S H. destruct S as
    [this l this' E | this this' E | this key value this' E | this key | this
    | this pattern | this l | this c | this b | this a | this | this d D
    | this h due I D].
  - unfold CachedStorage.start in E.
    destruct (CachedStorage._isStarted this); [discriminate|].
    injection E as <-. exact H.
  - unfold CachedStorage.stop in E.
    destruct (CachedStorage._isStarted this); [|discriminate]. cbn [negb] in E.
    match type of E with
    | match ?o with _ => _ end = _ => destruct o; [|discriminate]
    end.
    injection E as <-.
    apply (one_timer_frame (CachedStorage.flush (CachedStorage.with_isStarted this false)));
      [reflexivity | reflexivity |].
    apply one_timer_flush. exact H.
  - exact (one_timer_set _ _ _ _ E H).
  - unfold CachedStorage.delete.
    destruct (JS.hasOwnProperty (CachedStorage.cache this) key); exact H.
  - apply one_timer_flush. exact H.
  - exact H.
  - exact H.
  - unfold CachedStorage.externalChangeListener.
    destruct (JS.includes _ _); [|exact H].
    destruct (JS.is_null _); [exact H|].
    destruct (CachedStorage.merge this); [|exact H].
    apply one_timer_flush. exact H.
  - exact H.
  - exact H.
  - apply one_timer_flush. exact H.
  - exact H.
  - apply flush_disarms. cbn. intros e He.
    apply filter_In in He. apply (one_timer_entries this H e), He.
Qed.

Lemma reachable_one_timer (this : CachedStorage.t) :
  reachable this -> one_timer this.
Proof.
  induction 1 as [s b w time d m mp ck this E | this this' _ IH S].
  - unfold CachedStorage.new in E. destruct d; [|discriminate].
    injection E as <-. reflexivity.
  - exact (one_timer_step _ _ S IH).
Qed.


(** ** The size of a record *)


(** What the cache holds in a reachable state. *)

Lemma prop_set_defined (o : JS.object) (k : string) (v : JS.value) :
  v <> JS.VUndefined ->
  Forall (fun entry => snd entry <> JS.VUndefined) o ->
  Forall (fun entry => snd entry <> JS.VUndefined) (JS.prop_set o k v).
Proof.
  intros N. induction 1 as [|[k0 v0] o H F IH]; cbn [JS.prop_set].
  - now repeat constructor.
  - destruct (String.eqb k0 k); constructor; auto.
Qed.

Lemma prop_delete_defined (o : JS.object) (k : string) :
  Forall (fun entry => snd entry <> JS.VUndefined) o ->
  Forall (fun entry => snd entry <> JS.VUndefined) (JS.prop_delete o k).
Proof.
  induction 1 as [|[k0 v0] o H F IH]; cbn [JS.prop_delete].
  - constructor.
  - destruct (String.eqb k0 k); [exact IH | constructor; auto].
Qed.

Lemma prop_get_defined (o : JS.object) (k : string) :
  Forall (fun entry => snd entry <> JS.VUndefined) o ->
  JS.hasOwnProperty o k = true -> JS.prop_get o k <> JS.VUndefined.
Proof.
  induction 1 as [|[k0 v0] o H F IH]; cbn [JS.hasOwnProperty JS.prop_get].
  - discriminate.
  - destruct (String.eqb k0 k); auto.
Qed.

Lemma cache_defined_flush (this : CachedStorage.t) :
  cache_defined (CachedStorage.flush this).
Proof. unfold cache_defined. rewrite flush_cache. constructor. Qed.

Lemma cache_defined_step (this this' : CachedStorage.t) :
  step this this' -> cache_defined this -> cache_defined this'.
Proof.
  intros S H. destruct S as
    [this l this' E | this this' E | this key value this' E | this key | this
    | this pattern | this l | this c | this b | this a | this | this d D
    | this h due I D].
  - unfold CachedStorage.start in E.
    destruct (CachedStorage._isStarted this); [discriminate|].
    injection E as <-. exact H.
  - unfold CachedStorage.stop in E.
    destruct (CachedStorage._isStarted this); [|discriminate]. cbn [negb] in E.
    match type of E with
    | match ?o with _ => _ end = _ => destruct o; [|discriminate]
    end.
    injection E as <-. unfold cache_defined. cbn. rewrite flush_cache. constructor.
  - unfold CachedStorage.set in E.
    destruct (JS.is_undefined value) eqn:U.
    + injection E as <-. exact H.
    + destruct (CachedStorage.shouldCache this key) as [[]|]; cbn in E;
        [| |discriminate]; injection E as <-.
      * unfold cache_defined.
        rewrite (proj1 (proj2 (scheduleFlush_frame _))). cbn.
        apply prop_set_defined; [|exact H].
        intros ->. discriminate.
      * exact H.
  - unfold CachedStorage.delete, cache_defined.
    destruct (JS.hasOwnProperty (CachedStorage.cache this) key); cbn;
      [apply prop_delete_defined|]; exact H.
  - apply cache_defined_flush.
  - exact H.
  - exact H.
  - unfold CachedStorage.externalChangeListener.
    destruct (JS.includes _ _); [|exact H].
    destruct (JS.is_null _); [apply prop_delete_defined; exact H|].
    destruct (CachedStorage.merge this);
      [apply cache_defined_flush | apply prop_delete_defined; exact H].
  - exact H.
  - exact H.
  - apply cache_defined_flush.
  - exact H.
  - apply cache_defined_flush.
Qed.

Lemma reachable_cache_defined (this : CachedStorage.t) :
  reachable this -> cache_defined this.
Proof.
  induction 1 as [s b w time d m mp ck this E | this this' _ IH S].
  - unfold CachedStorage.new in E. destruct d; [|discriminate].
    injection E as <-. constructor.
  - exact (cache_defined_step _ _ S IH).
Qed.


(** The sizes asserted by the test suites. *)
Example getRecordSize_tests :
  let this := MemoryStorage.Facade None None in
  let empty := MemoryStorage.Shared [] [] [] in
  MemoryStorage.getRecordSize this empty "key" = Ok 0
  /\ MemoryStorage.getRecordSize this
       (MemoryStorage.set this empty "key" (JS.VObj [("a", JS.VStr "b")])) "key"
     = Ok 24
  /\ MemoryStorage.getRecordSize this
       (MemoryStorage.set this empty "key" (JS.VStr "value")) "key"
     = Ok 20.
Proof. repeat split. Qed.

(** ** Writing [undefined] *)

(** C2, where the code departs from the claim.  On the instance of the test
    suite the value One is cached under cached-key.  After
    [set(key, undefined)] the key is still reported present and still reads
    One, whereas after [delete(key)] it is absent and reads [null].  On a
    [MemoryStorage], [set(key, undefined)] leaves the key present, whereas
    [delete(key)] removes it. *)
Lemma C2_set_undefined_keeps_key :
  (this <- CachedStorage.set example_tab "cached-key" (JS.VStr "One") ;;
   this <- CachedStorage.set this "cached-key" JS.VUndefined ;;
   Ok (CachedStorage.has this "cached-key", CachedStorage.get this "cached-key"))
  = Ok (true, JS.VStr "One")
  /\ (this <- CachedStorage.set example_tab "cached-key" (JS.VStr "One") ;;
      let this := CachedStorage.delete this "cached-key" in
      Ok (CachedStorage.has this "cached-key", CachedStorage.get this "cached-key"))
     = Ok (false, JS.VNull)
  /\ (let this := MemoryStorage.Facade None None in
      let st := MemoryStorage.set this (MemoryStorage.Shared [] [] []) "k" JS.VUndefined in
      (MemoryStorage.has this st "k", MemoryStorage.get this st "k",
       MemoryStorage.keys this st))
     = (true, JS.VUndefined, ["k"])
  /\ (let this := MemoryStorage.Facade None None in
      let st := MemoryStorage.set this (MemoryStorage.Shared [] [] []) "k" (JS.VStr "v") in
      let st := MemoryStorage.delete this st "k" in
      (MemoryStorage.has this st "k", MemoryStorage.get this st "k",
       MemoryStorage.keys this st))
     = (false, JS.VNull, []).
Proof. repeat split. Qed.

(** ** The scenarios of the test suite *)

Example merging_tab_state : merging_tab = Ok example_merging_tab.
Proof. reflexivity. Qed.

(** The write of Two by facade 2 invokes the listener of the instance, and
    the listener leaves OneTwo in the backend and in what the instance
    reads. *)
Example merging_test :
  let storage2 := MemoryStorage.Facade (Some "2") None in
  let written :=
    MemoryStorage.set storage2 (CachedStorage.backend example_merging_tab)
      "cached-key" (JS.VStr "Two") in
  let change := MemoryStorage.Change "cached-key" (JS.VStr "Two") (JS.VStr "Zero") in
  let after :=
    CachedStorage.externalChangeListener
      (CachedStorage.with_backend example_merging_tab written) change in
  MemoryStorage.calls written
  = [MemoryStorage.Call (MemoryStorage.Registration (Some "1") 0%nat) change]
  /\ MemoryStorage.get (CachedStorage.storage after) (CachedStorage.backend after)
       "cached-key" = JS.VStr "OneTwo"
  /\ CachedStorage.get after "cached-key" = JS.VStr "OneTwo".
Proof. repeat split. Qed.

Lemma example_tab_reachable : reachable example_tab.
Proof.
  pose (s0 := CachedStorage.Make (MemoryStorage.Facade None None)
                (MemoryStorage.Shared [("cached-key", JS.VStr "One")] [] [])
                (TabStatusWatcher.Make false false) (Timer.new 0) None
                CachedStorage.defaultMatchesPattern 60000 None [] 0 None false None).
  assert (R0 : reachable s0).
  { apply (reachable_new (MemoryStorage.Facade None None)
             (MemoryStorage.Shared [("cached-key", JS.VStr "One")] [] [])
             (TabStatusWatcher.Make false false) 0 (Some 60000) None None None).
    reflexivity. }
  assert (R1 : forall s1, CachedStorage.start s0 0%nat = Ok s1 -> reachable s1).
  { intros s1 E. exact (reachable_step _ _ R0 (step_start _ _ _ E)). }
  specialize (R1 _ eq_refl).
  exact (reachable_step _ _
           (reachable_step _ _ R1 (step_tab_status _ true))
           (step_cacheKey _ "cached-*")).
Qed.




(** C9, at the merging test with an empty cache and the timer still armed:
    the flush leaves the backend as it is. *)
Lemma C9_flush_idempotent_witness :
  let this := CachedStorage.with_cache example_merging_tab [] in
  CachedStorage.cache this = []
  /\ CachedStorage.flushTimer this = Some 1%positive
  /\ CachedStorage.backend (CachedStorage.flush this) = CachedStorage.backend this
  /\ CachedStorage.flushTimer (CachedStorage.flush this) = None.
Proof.
  cbv zeta. set (this := CachedStorage.with_cache example_merging_tab []).
  assert (H : CachedStorage.cache this = []) by reflexivity.
  split; [exact H|]. split; [reflexivity|].
  destruct (C9_flush_idempotent this) as (_ & _ & E).
  destruct (E H) as (B & F). split; [exact B|].
  rewrite F. reflexivity.
Defined.

(** * Further properties of the code *)

(** ** MemoryStorage: reading what was written *)

Lemma get_view (this : MemoryStorage.t) (st : MemoryStorage.shared) (key : string) :
  MemoryStorage.has this st key = true ->
  MemoryStorage.get this st key
  = match MemoryStorage.stringifyStoredValues this with
    | Some false => JS.prop_get (MemoryStorage.data st) key
    | _ => JS.JSON_roundtrip (JS.prop_get (MemoryStorage.data st) key)
    end.
Proof.
  intros H. unfold MemoryStorage.get. rewrite H. cbn [negb].
  destruct (MemoryStorage.stringifyStoredValues this) as [[]|];
    destruct (JS.prop_get (MemoryStorage.data st) key); reflexivity.
Qed.

Lemma get_same_table (this : MemoryStorage.t) (st st' : MemoryStorage.shared)
    (key : string) :
  JS.hasOwnProperty (MemoryStorage.data st') key
  = JS.hasOwnProperty (MemoryStorage.data st) key ->
  JS.prop_get (MemoryStorage.data st') key = JS.prop_get (MemoryStorage.data st) key ->
  MemoryStorage.has this st' key = MemoryStorage.has this st key
  /\ MemoryStorage.get this st' key = MemoryStorage.get this st key
  /\ MemoryStorage.getRecordSize this st' key = MemoryStorage.getRecordSize this st key.
Proof.
  intros H G. unfold MemoryStorage.getRecordSize, MemoryStorage.get, MemoryStorage.has.
  now rewrite H, G.
Qed.



(** ** MemoryStorage: the order of the notifications *)

Lemma notify_filter (this_id : string) (regs : list MemoryStorage.registration)
    (c : MemoryStorage.change) :
  MemoryStorage.notify this_id regs c
  = map (fun r => MemoryStorage.Call r c)
      (filter (fun r => match MemoryStorage.storageId r with
                        | Some sid => negb (String.eqb sid this_id)
                        | None => false
                        end) regs).
Proof.
  induction regs as [|r regs IH]; cbn [MemoryStorage.notify filter map];
    [reflexivity|].
  destruct (MemoryStorage.storageId r) as [sid|]; [|exact IH].
  destruct (negb (String.eqb sid this_id)); cbn [map]; now rewrite IH.
Qed.



(** ** MemoryStorage: the keys *)

Lemma insert_index_perm (x : N * string) (l : list (N * string)) :
  Permutation (JS.insert_index x l) (x :: l).
Proof.
  induction l as [|y l IH]; cbn [JS.insert_index]; [reflexivity|].
  destruct (fst x <=? fst y)%N; [reflexivity|].
  rewrite IH. apply perm_swap.
Qed.

Lemma index_keys_perm (ks : list string) :
  Permutation (map snd (JS.index_keys ks))
    (filter (fun k => match JS.array_index k with Some _ => true | None => false end) ks).
Proof.
  induction ks as [|k ks IH]; cbn [JS.index_keys filter]; [reflexivity|].
  destruct (JS.array_index k) as [n|]; [|exact IH].
  rewrite insert_index_perm. cbn [map snd]. now constructor.
Qed.

Lemma partition_perm {A : Type} (p q : A -> bool) (l : list A) :
  (forall x, q x = negb (p x)) ->
  Permutation (filter p l ++ filter q l) l.
Proof.
  intros Q. induction l as [|a l IH]; cbn [filter]; [reflexivity|].
  rewrite (Q a). destruct (p a); cbn [negb app].
  - now constructor.
  - rewrite <- Permutation_middle. now constructor.
Qed.

Lemma Object_keys_perm (o : JS.object) :
  Permutation (JS.Object_keys o) (map fst o).
Proof.
  unfold JS.Object_keys, JS.named_keys. rewrite index_keys_perm.
  apply partition_perm. intros k. now destruct (JS.array_index k).
Qed.

Lemma prop_set_keys (o : JS.object) (k : string) (v : JS.value) :
  map fst (JS.prop_set o k v)
  = if JS.hasOwnProperty o k then map fst o else (map fst o ++ [k])%list.
Proof.
  induction o as [|[k0 v0] o IH]; cbn [JS.prop_set JS.hasOwnProperty map fst app].
  - reflexivity.
  - destruct (String.eqb k0 k); cbn [map fst]; [reflexivity|].
    rewrite IH. now destruct (JS.hasOwnProperty o k).
Qed.

Lemma prop_delete_keys (o : JS.object) (k : string) :
  map fst (JS.prop_delete o k)
  = filter (fun k' => negb (String.eqb k' k)) (map fst o).
Proof.
  induction o as [|[k0 v0] o IH]; cbn [JS.prop_delete map fst filter].
  - reflexivity.
  - destruct (String.eqb k0 k); cbn [negb map fst]; now rewrite IH.
Qed.

Lemma prop_set_NoDup (o : JS.object) (k : string) (v : JS.value) :
  NoDup (map fst o) -> NoDup (map fst (JS.prop_set o k v)).
Proof.
  intros H. rewrite prop_set_keys.
  destruct (JS.hasOwnProperty o k) eqn:E; [exact H|].
  apply NoDup_app; [exact H | repeat constructor; intros [] |].
  intros x Hx [<-|[]]. apply hasOwnProperty_In in Hx. congruence.
Qed.

Lemma prop_delete_NoDup (o : JS.object) (k : string) :
  NoDup (map fst o) -> NoDup (map fst (JS.prop_delete o k)).
Proof. intros H. rewrite prop_delete_keys. now apply NoDup_filter. Qed.



(** ** MemoryStorage: listening and no longer listening *)

Lemma filter_all {A : Type} (p : A -> bool) (l : list A) :
  (forall x, In x l -> p x = true) -> filter p l = l.
Proof.
  induction l as [|a l IH]; intros H; cbn [filter]; [reflexivity|].
  rewrite (H a (or_introl eq_refl)), IH; [reflexivity|].
  intros x Hx. apply H. now right.
Qed.

(** X5.  When the listener function is not yet in the registry,
    [onExternalChange(listener)] followed by the function it returns leaves
    the shared store as it was.  Calling the returned function a second time
    changes nothing more. *)
Theorem MemoryStorage_subscribe_then_unsubscribe :
  forall (this : MemoryStorage.t) (st : MemoryStorage.shared)
         (listener : MemoryStorage.listener),
    (forall r, In r (MemoryStorage.externalChangeListeners st) ->
               MemoryStorage.listener_fn r <> listener) ->
    let registered := fst (MemoryStorage.onExternalChange this st listener) in
    let unsubscribe := snd (MemoryStorage.onExternalChange this st listener) in
    unsubscribe registered = st
    /\ forall later, unsubscribe (unsubscribe later) = unsubscribe later.
Proof.
  intros this st listener F. cbn [MemoryStorage.onExternalChange fst snd].
  unfold MemoryStorage.unsubscribe. cbn [MemoryStorage.data
    MemoryStorage.externalChangeListeners MemoryStorage.calls]. split.
  - rewrite filter_app. cbn [filter MemoryStorage.listener_fn].
    rewrite Nat.eqb_refl. cbn [negb]. rewrite app_nil_r, filter_all.
    + now destruct st.
    + intros r Hr. apply F in Hr.
      now destruct (Nat.eqb_spec (MemoryStorage.listener_fn r) listener).
  - intros later. f_equal. apply filter_all. intros r Hr.
    now apply filter_In in Hr.
Qed.

Lemma MemoryStorage_subscribe_then_unsubscribe_witness :
  let this := MemoryStorage.Facade (Some "1") None in
  let st := MemoryStorage.Shared [("k", JS.VNull)]
              [MemoryStorage.Registration (Some "2") 3%nat] [] in
  (forall r, In r (MemoryStorage.externalChangeListeners st) ->
             MemoryStorage.listener_fn r <> 4%nat)
  /\ snd (MemoryStorage.onExternalChange this st 4%nat)
       (fst (MemoryStorage.onExternalChange this st 4%nat)) = st.
Proof.
  cbv zeta.
  set (this := MemoryStorage.Facade (Some "1") None).
  set (st := MemoryStorage.Shared _ _ _).
  assert (F : forall r, In r (MemoryStorage.externalChangeListeners st) ->
                        MemoryStorage.listener_fn r <> 4%nat).
  { intros r [<-|[]]. discriminate. }
  split; [exact F|].
  exact (proj1 (MemoryStorage_subscribe_then_unsubscribe this st 4%nat F)).
Defined.


(** ** CachedStorage: starting and stopping *)

Lemma flush_frame (this : CachedStorage.t) :
  CachedStorage._isStarted (CachedStorage.flush this) = CachedStorage._isStarted this
  /\ CachedStorage.stopListeningToExternalChanges (CachedStorage.flush this)
     = CachedStorage.stopListeningToExternalChanges this
  /\ CachedStorage.flushDelay (CachedStorage.flush this) = CachedStorage.flushDelay this
  /\ CachedStorage.tabStatusWatcher (CachedStorage.flush this)
     = CachedStorage.tabStatusWatcher this
  /\ CachedStorage.cachedKeys (CachedStorage.flush this) = CachedStorage.cachedKeys this
  /\ CachedStorage.matchesPattern (CachedStorage.flush this)
     = CachedStorage.matchesPattern this.
Proof.
  unfold CachedStorage.flush. cbn. now destruct (CachedStorage.flushTimer this).
Qed.

Lemma scheduleFlush_started (this : CachedStorage.t) :
  CachedStorage._isStarted (CachedStorage.scheduleFlush this)
  = CachedStorage._isStarted this
  /\ CachedStorage.stopListeningToExternalChanges (CachedStorage.scheduleFlush this)
     = CachedStorage.stopListeningToExternalChanges this
  /\ CachedStorage.flushDelay (CachedStorage.scheduleFlush this)
     = CachedStorage.flushDelay this.
Proof.
  unfold CachedStorage.scheduleFlush. now destruct (CachedStorage.flushTimer this).
Qed.

Lemma listening_frame (this this' : CachedStorage.t) :
  CachedStorage._isStarted this' = CachedStorage._isStarted this ->
  CachedStorage.stopListeningToExternalChanges this'
  = CachedStorage.stopListeningToExternalChanges this ->
  listening this -> listening this'.
Proof. unfold listening. now intros -> ->. Qed.

Lemma listening_flush (this : CachedStorage.t) :
  listening this -> listening (CachedStorage.flush this).
Proof. apply listening_frame; apply flush_frame. Qed.

Lemma listening_step (this this' : CachedStorage.t) :
  step this this' -> listening this -> listening this'.
Proof.
  intros S H. destruct S as
    [this l this' E | this this' E | this key value this' E | this key | this
    | this pattern | this l | this c | this b | this a | this | this d D
    | this h due I D].
  - unfold CachedStorage.start in E.
    destruct (CachedStorage._isStarted this); [discriminate|].
    injection E as <-. split; cbn.
    + discriminate.
    + intros f [= <-]. now exists l.
  - unfold CachedStorage.stop in E.
    destruct (CachedStorage._isStarted this); [|discriminate]. cbn [negb] in E.
    match type of E with
    | match ?o with _ => _ end = _ => destruct o; [|discriminate]
    end.
    injection E as <-. split.
    + cbn [CachedStorage._isStarted CachedStorage.with_backend
           CachedStorage.with_tabStatusWatcher].
      rewrite (proj1 (flush_frame _)). discriminate.
    + cbn [CachedStorage.stopListeningToExternalChanges CachedStorage.with_backend
           CachedStorage.with_tabStatusWatcher].
      rewrite (proj1 (proj2 (flush_frame _))). exact (proj2 H).
  - unfold CachedStorage.set in E. destruct (JS.is_undefined value).
    + injection E as <-. exact H.
    + destruct (CachedStorage.shouldCache this key) as [[]|]; cbn in E;
        [| |discriminate]; injection E as <-; [|exact H].
      apply (listening_frame this); [| |exact H].
      * now rewrite (proj1 (scheduleFlush_started _)).
      * now rewrite (proj1 (proj2 (scheduleFlush_started _))).
  - unfold CachedStorage.delete.
    destruct (JS.hasOwnProperty (CachedStorage.cache this) key); exact H.
  - now apply listening_flush.
  - exact H.
  - exact H.
  - unfold CachedStorage.externalChangeListener.
    destruct (JS.includes _ _); [|exact H].
    destruct (JS.is_null _); [exact H|].
    destruct (CachedStorage.merge this); [|exact H].
    now apply listening_flush.
  - exact H.
  - exact H.
  - now apply listening_flush.
  - exact H.
  - now apply listening_flush.
Qed.

Lemma reachable_listening (this : CachedStorage.t) :
  reachable this -> listening this.
Proof.
  induction 1 as [s b w time d m mp ck this E | this this' _ IH S].
  - unfold CachedStorage.new in E. destruct d; [|discriminate].
    injection E as <-. split; cbn; [discriminate | intros f; discriminate].
  - exact (listening_step _ _ S IH).
Qed.

Lemma write_back_listeners (this : CachedStorage.t) (ks : list string) :
  MemoryStorage.externalChangeListeners (CachedStorage.write_back this ks)
  = MemoryStorage.externalChangeListeners (CachedStorage.backend this).
Proof.
  unfold CachedStorage.write_back.
  exact (proj2 (proj2 (write_back_fold (CachedStorage.storage this)
                         (CachedStorage.cache this) ks
                         (CachedStorage.backend this) EmptyString))).
Qed.

(** What [stop()] returns on a started instance that holds the function
    returned to [start()] for [listener]. *)
Lemma stop_started (this : CachedStorage.t) (listener : MemoryStorage.listener) :
  CachedStorage._isStarted this = true ->
  CachedStorage.stopListeningToExternalChanges this
  = Some (MemoryStorage.unsubscribe listener) ->
  let flushed := CachedStorage.flush (CachedStorage.with_isStarted this false) in
  CachedStorage.stop this
  = Ok (CachedStorage.with_backend
          (CachedStorage.with_tabStatusWatcher flushed
             (TabStatusWatcher.stop (CachedStorage.tabStatusWatcher this)))
          (MemoryStorage.unsubscribe listener (CachedStorage.backend flushed))).
Proof.
  intros S L. cbv zeta. unfold CachedStorage.stop. rewrite S. cbn [negb].
  cbn [CachedStorage.stopListeningToExternalChanges CachedStorage.with_tabStatusWatcher
       CachedStorage.backend].
  rewrite (proj1 (proj2 (flush_frame _))).
  rewrite (proj1 (proj2 (proj2 (proj2 (flush_frame _))))).
  cbn [CachedStorage.stopListeningToExternalChanges CachedStorage.with_isStarted
       CachedStorage.tabStatusWatcher].
  now rewrite L.
Qed.


Lemma cached_write_reachable :
  exists cached,
    CachedStorage.set example_tab "cached-key" (JS.VStr "Two") = Ok cached
    /\ reachable cached
    /\ CachedStorage._isStarted cached = true
    /\ JS.hasOwnProperty (CachedStorage.cache cached) "cached-key" = true
    /\ JS.prop_get (CachedStorage.cache cached) "cached-key" = JS.VStr "Two".
Proof.
  eexists. split; [reflexivity|]. split; [|repeat split].
  eapply reachable_step; [exact example_tab_reachable|].
  apply (step_set example_tab "cached-key" (JS.VStr "Two")). reflexivity.
Qed.


Lemma start_not_started (this : CachedStorage.t) (listener : MemoryStorage.listener) :
  CachedStorage._isStarted this = false ->
  exists started,
    CachedStorage.start this listener = Ok started
    /\ CachedStorage._isStarted started = true
    /\ CachedStorage.stopListeningToExternalChanges started
       = Some (MemoryStorage.unsubscribe listener)
    /\ CachedStorage.cache started = CachedStorage.cache this
    /\ CachedStorage.storage started = CachedStorage.storage this
    /\ MemoryStorage.data (CachedStorage.backend started)
       = MemoryStorage.data (CachedStorage.backend this)
    /\ MemoryStorage.externalChangeListeners (CachedStorage.backend started)
       = (MemoryStorage.externalChangeListeners (CachedStorage.backend this)
          ++ [MemoryStorage.Registration
                (MemoryStorage.id (CachedStorage.storage this)) listener])%list.
Proof.
  intros S. unfold CachedStorage.start. rewrite S.
  eexists. split; [reflexivity|]. now cbn.
Qed.



(** ** CachedStorage: reading, writing and deleting *)

Lemma has_unfold (this : CachedStorage.t) (key : string) :
  CachedStorage.has this key
  = (JS.hasOwnProperty (CachedStorage.cache this) key
     || JS.hasOwnProperty (MemoryStorage.data (CachedStorage.backend this)) key).
Proof. reflexivity. Qed.

Lemma delete_reads (this : MemoryStorage.t) (st : MemoryStorage.shared)
    (key : string) :
  MemoryStorage.has this (MemoryStorage.delete this st key) key = false
  /\ MemoryStorage.get this (MemoryStorage.delete this st key) key = JS.VNull
  /\ forall other, other <> key ->
       MemoryStorage.has this (MemoryStorage.delete this st key) other
       = MemoryStorage.has this st other
       /\ MemoryStorage.get this (MemoryStorage.delete this st key) other
          = MemoryStorage.get this st other.
Proof.
  assert (H : MemoryStorage.has this (MemoryStorage.delete this st key) key = false).
  { unfold MemoryStorage.has.
    now rewrite delete_data, hasOwnProperty_delete, String.eqb_refl. }
  split; [exact H|]. split.
  - unfold MemoryStorage.get. now rewrite H.
  - intros other N.
    destruct (get_same_table this st (MemoryStorage.delete this st key) other)
      as (A & B & _); [| |now split]; rewrite delete_data.
    + rewrite hasOwnProperty_delete.
      now destruct (String.eqb_spec key other); [congruence|].
    + rewrite prop_get_delete.
      now destruct (String.eqb_spec key other); [congruence|].
Qed.

Lemma set_reads (this : MemoryStorage.t) (st : MemoryStorage.shared)
    (key : string) (value : JS.value) :
  MemoryStorage.has this (MemoryStorage.set this st key value) key = true
  /\ MemoryStorage.get this (MemoryStorage.set this st key value) key
     = read_back this value
  /\ forall other, other <> key ->
       MemoryStorage.has this (MemoryStorage.set this st key value) other
       = MemoryStorage.has this st other
       /\ MemoryStorage.get this (MemoryStorage.set this st key value) other
          = MemoryStorage.get this st other.
Proof.
  assert (H : MemoryStorage.has this (MemoryStorage.set this st key value) key = true).
  { unfold MemoryStorage.has. now rewrite set_data, hasOwnProperty_set, String.eqb_refl. }
  split; [exact H|]. split.
  - rewrite (get_view _ _ _ H), set_data, prop_get_set, String.eqb_refl. reflexivity.
  - intros other N.
    destruct (get_same_table this st (MemoryStorage.set this st key value) other)
      as (A & B & _); [| |now split]; rewrite set_data.
    + rewrite hasOwnProperty_set. now destruct (String.eqb_spec key other); [congruence|].
    + rewrite prop_get_set. now destruct (String.eqb_spec key other); [congruence|].
Qed.


Lemma not_undefined (v : JS.value) : v <> JS.VUndefined -> JS.is_undefined v = false.
Proof.
  intros N. destruct (JS.is_undefined v) eqn:E; [|reflexivity].
  apply is_undefined_true in E. contradiction.
Qed.






(** ** CachedStorage: when the cache is written back *)


Lemma flush_pending_frame (this this' : CachedStorage.t) :
  CachedStorage.cache this' = CachedStorage.cache this ->
  CachedStorage.flushTimer this' = CachedStorage.flushTimer this ->
  CachedStorage.timer this' = CachedStorage.timer this ->
  CachedStorage.flushDelay this' = CachedStorage.flushDelay this ->
  flush_pending this -> flush_pending this'.
Proof. unfold flush_pending. now intros -> -> -> ->. Qed.

Lemma flush_pending_cache (this : CachedStorage.t) (c : JS.object) :
  (c <> [] -> CachedStorage.cache this <> []) ->
  flush_pending this -> flush_pending (CachedStorage.with_cache this c).
Proof.
  intros I (A & B). split; [|exact B]. intros N. exact (A (I N)).
Qed.

Lemma flush_pending_flush (this : CachedStorage.t) :
  (forall e, In e (Timer.scheduled (CachedStorage.timer this)) ->
             snd e <= Timer.now (CachedStorage.timer this)
                      + CachedStorage.flushDelay this) ->
  flush_pending (CachedStorage.flush this).
Proof.
  intros B. split.
  - rewrite flush_cache. congruence.
  - rewrite flush_timer, (proj1 (proj2 (proj2 (flush_frame this)))).
    intros e He. destruct (CachedStorage.flushTimer this); [|now apply B].
    cbn in He. apply filter_In in He. now apply B.
Qed.

Lemma prop_delete_nonempty (o : JS.object) (k : string) :
  JS.prop_delete o k <> [] -> o <> [].
Proof. intros N ->. now apply N. Qed.

Lemma flush_pending_step (this this' : CachedStorage.t) :
  step this this' -> flush_pending this -> flush_pending this'.
Proof.
  intros S H. destruct S as
    [this l this' E | this this' E | this key value this' E | this key | this
    | this pattern | this l | this c | this b | this a | this | this d D
    | this h due I D].
  - unfold CachedStorage.start in E.
    destruct (CachedStorage._isStarted this); [discriminate|].
    injection E as <-. exact H.
  - unfold CachedStorage.stop in E.
    destruct (CachedStorage._isStarted this); [|discriminate]. cbn [negb] in E.
    match type of E with
    | match ?o with _ => _ end = _ => destruct o; [|discriminate]
    end.
    injection E as <-.
    apply (flush_pending_frame
             (CachedStorage.flush (CachedStorage.with_isStarted this false)));
      try reflexivity.
    apply flush_pending_flush. exact (proj2 H).
  - unfold CachedStorage.set in E. destruct (JS.is_undefined value).
    + injection E as <-. exact H.
    + destruct (CachedStorage.shouldCache this key) as [[]|]; cbn in E;
        [| |discriminate]; injection E as <-; [|exact H].
      destruct H as (A & B). unfold CachedStorage.scheduleFlush.
      cbn [CachedStorage.flushTimer CachedStorage.with_cache].
      destruct (CachedStorage.flushTimer this) as [h|] eqn:F.
      * split; [cbn; rewrite F; discriminate | exact B].
      * split; [cbn; discriminate|]. cbn. intros e He.
        apply in_app_or in He. destruct He as [He|[<-|[]]]; [now apply B|].
        cbn. unfold Timer.now. lia.
  - unfold CachedStorage.delete.
    destruct (JS.hasOwnProperty (CachedStorage.cache this) key); [|exact H].
    apply (flush_pending_frame
             (CachedStorage.with_cache this
                (JS.prop_delete (CachedStorage.cache this) key))); try reflexivity.
    apply flush_pending_cache; [apply prop_delete_nonempty | exact H].
  - apply flush_pending_flush. exact (proj2 H).
  - exact H.
  - exact H.
  - unfold CachedStorage.externalChangeListener.
    destruct (JS.includes _ _); [|exact H].
    destruct (JS.is_null _);
      [apply flush_pending_cache; [apply prop_delete_nonempty | exact H]|].
    destruct (CachedStorage.merge this);
      [|apply flush_pending_cache; [apply prop_delete_nonempty | exact H]].
    apply flush_pending_flush. exact (proj2 H).
  - exact H.
  - exact H.
  - apply flush_pending_flush. exact (proj2 H).
  - destruct H as (A & B). split; [exact A|]. cbn. intros e He.
    specialize (B e He). unfold Timer.now in *. lia.
  - apply flush_pending_flush. cbn. intros e He.
    apply filter_In in He. now apply (proj2 H).
Qed.

Lemma reachable_flush_pending (this : CachedStorage.t) :
  reachable this -> flush_pending this.
Proof.
  induction 1 as [s b w time d m mp ck this E | this this' _ IH S].
  - unfold CachedStorage.new in E. destruct d; [|discriminate].
    injection E as <-. split; cbn; [congruence | intros e []].
  - exact (flush_pending_step _ _ S IH).
Qed.



(** ** CachedStorage: which keys are cached *)

Lemma matches_any_cons (matches : string -> string -> result bool)
    (key pattern : string) (rest : list string) :
  CachedStorage.matches_any matches key (pattern :: rest)
  = match matches key pattern with
    | Ok true => Ok true
    | Ok false => CachedStorage.matches_any matches key rest
    | Throw e => Throw e
    end.
Proof. cbn. now destruct (matches key pattern) as [[]|]. Qed.

(** X15.  [shouldCacheKey(key)] tries the registered patterns in order and
    stops at the first that matches or throws: it is true exactly when some
    pattern matches and every earlier one answers false, it throws exactly
    the error of a pattern whose every predecessor answers false, and it is
    false (the [undefined] of the source) exactly when every pattern answers
    false, in particular when no pattern was ever registered. *)
Theorem CachedStorage_shouldCacheKey_first_match :
  forall (this : CachedStorage.t) (key : string),
    let answers_false := fun p => CachedStorage.matchesPattern this key p = Ok false in
    (CachedStorage.shouldCacheKey this key = Ok true
     <-> exists before pattern after,
           CachedStorage.cachedKeys this = Some (before ++ pattern :: after)%list
           /\ Forall answers_false before
           /\ CachedStorage.matchesPattern this key pattern = Ok true)
    /\ (forall e,
          CachedStorage.shouldCacheKey this key = Throw e
          <-> exists before pattern after,
                CachedStorage.cachedKeys this = Some (before ++ pattern :: after)%list
                /\ Forall answers_false before
                /\ CachedStorage.matchesPattern this key pattern = Throw e)
    /\ (CachedStorage.shouldCacheKey this key = Ok false
        <-> CachedStorage.cachedKeys this = None
            \/ exists patterns,
                 CachedStorage.cachedKeys this = Some patterns
                 /\ Forall answers_false patterns).
Proof.
  intros this key answers_false. unfold CachedStorage.shouldCacheKey.
  set (m := CachedStorage.matchesPattern this) in *.
  assert (G : forall patterns r,
             CachedStorage.matches_any m key patterns = r
             <-> match r with
                 | Ok false => Forall answers_false patterns
                 | _ => exists before pattern after,
                          patterns = (before ++ pattern :: after)%list
                          /\ Forall answers_false before
                          /\ m key pattern = r
                 end).
  { induction patterns as [|p ps IH]; intros r.
    - cbn [CachedStorage.matches_any]. split.
      + intros <-. constructor.
      + destruct r as [[]|e]; [| reflexivity |];
          intros (before & pattern & after & E & _); now destruct before.
    - rewrite matches_any_cons. destruct (m key p) as [[]|e0] eqn:P.
      + split.
        * intros <-. exists [], p, ps. now repeat split.
        * destruct r as [[]|e].
          -- reflexivity.
          -- intros F. inversion F as [|? ? F1 _]. unfold answers_false in F1.
             fold m in F1. congruence.
          -- intros (before & pattern & after & E & F & M).
             destruct before as [|q before]; injection E as <- ->; [congruence|].
             inversion F as [|? ? F1 _]. unfold answers_false in F1. fold m in F1.
             congruence.
      + rewrite IH. destruct r as [[]|e].
        * split.
          -- intros (before & pattern & after & -> & F & M).
             exists (p :: before), pattern, after. repeat split; [|exact M].
             constructor; [exact P | exact F].
          -- intros (before & pattern & after & E & F & M).
             destruct before as [|q before]; injection E as <- ->; [congruence|].
             exists before, pattern, after. repeat split; [|exact M].
             now inversion F.
        * split; [intros F; constructor; [exact P | exact F]
                 | intros F; now inversion F].
        * split.
          -- intros (before & pattern & after & -> & F & M).
             exists (p :: before), pattern, after. repeat split; [|exact M].
             constructor; [exact P | exact F].
          -- intros (before & pattern & after & E & F & M).
             destruct before as [|q before]; injection E as <- ->; [congruence|].
             exists before, pattern, after. repeat split; [|exact M].
             now inversion F.
      + split.
        * intros <-. exists [], p, ps. now repeat split.
        * destruct r as [[]|e].
          -- intros (before & pattern & after & E & F & M).
             destruct before as [|q before]; injection E as <- ->; [congruence|].
             inversion F as [|? ? F1 _]. unfold answers_false in F1. fold m in F1.
             congruence.
          -- intros F. inversion F as [|? ? F1 _]. unfold answers_false in F1.
             fold m in F1. congruence.
          -- intros (before & pattern & after & E & F & M).
             destruct before as [|q before]; injection E as <- ->; [congruence|].
             inversion F as [|? ? F1 _]. unfold answers_false in F1. fold m in F1.
             congruence. }
  destruct (CachedStorage.cachedKeys this) as [patterns|].
  - split; [|split].
    + split.
      * intros H. apply (G patterns (Ok true)) in H.
        destruct H as (b & p & a & -> & F & M). now exists b, p, a.
      * intros (b & p & a & [= ->] & F & M). apply (G _ (Ok true)).
        now exists b, p, a.
    + intros e. split.
      * intros H. apply (G patterns (Throw e)) in H.
        destruct H as (b & p & a & -> & F & M). now exists b, p, a.
      * intros (b & p & a & [= ->] & F & M). apply (G _ (Throw e)).
        now exists b, p, a.
    + split.
      * intros H. apply (G patterns (Ok false)) in H. right. now exists patterns.
      * intros [N|(ps & [= <-] & F)]; [discriminate|]. now apply (G _ (Ok false)).
  - split; [|split].
    + split; [discriminate | intros (b & p & a & E & _); discriminate].
    + intros e. split; [discriminate | intros (b & p & a & E & _); discriminate].
    + split; [now left | reflexivity].
Qed.

(** ** CachedStorage: after a change made by another tab *)


(** ** CachedStorage: several writes of one key *)

Lemma set_cached (this : CachedStorage.t) (key : string) (value : JS.value) :
  value <> JS.VUndefined ->
  CachedStorage.shouldCache this key = Ok true ->
  CachedStorage.set this key value
  = Ok (CachedStorage.scheduleFlush
          (CachedStorage.with_cache this
             (JS.prop_set (CachedStorage.cache this) key value))).
Proof.
  intros N SC. unfold CachedStorage.set. now rewrite (not_undefined value N), SC.
Qed.

Lemma shouldCache_scheduleFlush (this : CachedStorage.t) (c : JS.object) (key : string) :
  CachedStorage.shouldCache
    (CachedStorage.scheduleFlush (CachedStorage.with_cache this c)) key
  = CachedStorage.shouldCache this key.
Proof.
  unfold CachedStorage.scheduleFlush.
  now destruct (CachedStorage.flushTimer (CachedStorage.with_cache this c)).
Qed.





(** ** matchesPattern: patterns and values *)

(** X19.  Whether [matchesPattern] throws depends on the pattern alone, not
    on the value it is asked about, and [InvalidPattern] is the only error it
    throws.  The pattern made of one asterisk matches every value.  A pattern
    without asterisk matches itself, and followed by an asterisk it matches
    every value that extends it. *)
Theorem matchesPattern_error_is_of_the_pattern :
  forall (pattern value value' : string),
    (forall e, matchesPattern value pattern = Throw e ->
               e = InvalidPattern /\ matchesPattern value' pattern = Throw e)
    /\ matchesPattern value "*" = Ok true
    /\ (~ contains_asterisk pattern ->
        matchesPattern pattern pattern = Ok true
        /\ forall rest, matchesPattern (pattern ++ rest) (pattern ++ "*") = Ok true).
Proof.
  intros pattern value value'. split; [|split].
  - intros e. destruct (first_asterisk pattern) as [H|(stem & rest & -> & H)].
    + rewrite (matchesPattern_no_asterisk value pattern H). discriminate.
    + destruct rest as [|c rest].
      * rewrite (matchesPattern_final_asterisk value stem H). discriminate.
      * rewrite (matchesPattern_inner_asterisk value stem rest c H),
          (matchesPattern_inner_asterisk value' stem rest c H).
        intros [= <-]. now split.
  - assert (N : ~ contains_asterisk EmptyString).
    { intros [i Hi]. destruct i; discriminate. }
    change "*" with (EmptyString ++ "*")%string.
    rewrite (matchesPattern_final_asterisk value EmptyString N).
    now rewrite prefix_empty.
  - intros H. split.
    + rewrite (matchesPattern_no_asterisk pattern pattern H).
      now rewrite String.eqb_refl.
    + intros rest. rewrite (matchesPattern_final_asterisk _ pattern H).
      f_equal. apply prefix_starts_with. now exists rest.
Qed.

(** ** LocalStorage *)

Lemma getItem_putItem (its : LocalStorage.items) (k k' text : string) :
  LocalStorage.getItem (LocalStorage.putItem its k text) k'
  = if String.eqb k k' then Some text else LocalStorage.getItem its k'.
Proof.
  induction its as [|[k0 t0] its IH]; cbn [LocalStorage.putItem LocalStorage.getItem].
  - reflexivity.
  - destruct (String.eqb_spec k0 k) as [->|N]; cbn [LocalStorage.getItem].
    + destruct (String.eqb_spec k k'); reflexivity.
    + rewrite IH. destruct (String.eqb_spec k0 k') as [->|];
        destruct (String.eqb_spec k k'); congruence.
Qed.

Lemma getItem_removeItem (its : LocalStorage.items) (k k' : string) :
  LocalStorage.getItem (LocalStorage.removeItem its k) k'
  = if String.eqb k k' then None else LocalStorage.getItem its k'.
Proof.
  induction its as [|[k0 t0] its IH];
    cbn [LocalStorage.removeItem LocalStorage.getItem].
  - now destruct (String.eqb k k').
  - destruct (String.eqb_spec k0 k) as [->|N]; cbn [LocalStorage.getItem]; rewrite IH.
    + destruct (String.eqb_spec k k'); reflexivity.
    + destruct (String.eqb_spec k0 k') as [->|];
        destruct (String.eqb_spec k k'); congruence.
Qed.

(** X20.  On a [LocalStorage], [set(key, undefined)] is [delete(key)]: it
    returns whatever the platform says about [setItem], and afterwards the key
    has no item, [has(key)] is false, [get(key)] is [null] and the size of the
    record is 0, the items of the other keys being untouched. *)
Theorem LocalStorage_set_undefined_deletes :
  forall (pf : LocalStorage.platform) (this : LocalStorage.t)
         (its : LocalStorage.items) (key : string),
    let deleted := LocalStorage.delete this its key in
    LocalStorage.set pf this its key JS.VUndefined = LocalStorage.Returned deleted
    /\ LocalStorage.has this deleted key = false
    /\ LocalStorage.get pf this deleted key = JS.VNull
    /\ LocalStorage.getRecordSize this deleted key = 0
    /\ forall other, other <> key ->
         LocalStorage.getItem deleted other = LocalStorage.getItem its other.
Proof.
  intros pf this its key deleted. subst deleted.
  unfold LocalStorage.set, LocalStorage.setObject, LocalStorage.delete,
    LocalStorage.deleteObject, LocalStorage.has, LocalStorage.get,
    LocalStorage.getObject, LocalStorage.getRecordSize, LocalStorage.has,
    LocalStorage.hasObject.
  cbn [JS.is_undefined]. rewrite getItem_removeItem, String.eqb_refl.
  repeat split. intros other N. rewrite getItem_removeItem.
  now destruct (String.eqb_spec key other); [congruence|].
Qed.



(** X22.  What [set] does when [setItem] refuses the text with an error.  A
    [DOMException] of code 22 or 1014, or named QuotaExceededError or
    NS_ERROR_DOM_QUOTA_REACHED, on a platform that defines [DOMException], is
    handed to [onFull] when that option was given, and [set] returns with the
    items as they were.  It is thrown when the option was not given.  Every
    other error is thrown, and so is every error on a platform that does not
    define [DOMException].  When [setItem] accepts, [set] returns without
    calling [onFull]. *)
Theorem LocalStorage_set_when_full :
  forall (pf : LocalStorage.platform) (this : LocalStorage.t)
         (its : LocalStorage.items) (key : string) (value : JS.value) (text : string),
    JS.JSON_stringify value = Some text ->
    (LocalStorage.setItem_refuses pf its key text = None ->
     LocalStorage.set pf this its key value
     = LocalStorage.Returned (LocalStorage.putItem its key text))
    /\ forall error,
         LocalStorage.setItem_refuses pf its key text = Some error ->
         let quota :=
           LocalStorage.DOMException_defined pf = true
           /\ exists code name,
                error = LocalStorage.DOMException code name
                /\ (code = Some 22 \/ code = Some 1014
                    \/ name = "QuotaExceededError"
                    \/ name = "NS_ERROR_DOM_QUOTA_REACHED") in
         (quota -> LocalStorage.onFull this = true ->
          LocalStorage.set pf this its key value = LocalStorage.CalledOnFull its error)
         /\ (quota -> LocalStorage.onFull this = false ->
             LocalStorage.set pf this its key value = LocalStorage.Thrown error)
         /\ (~ quota ->
             LocalStorage.set pf this its key value = LocalStorage.Thrown error).
Proof.
  intros pf this its key value text T.
  assert (U : JS.is_undefined value = false).
  { destruct value; try reflexivity. discriminate. }
  unfold LocalStorage.set, LocalStorage.setObject, LocalStorage.setItem.
  rewrite U, T. split; [now intros ->|]. intros error ->.
  set (quota := LocalStorage.DOMException_defined pf = true /\ _).
  assert (Q : LocalStorage.isQuotaExceededError pf error = true <-> quota).
  { subst quota. unfold LocalStorage.isQuotaExceededError.
    destruct (LocalStorage.DOMException_defined pf); cbn [negb];
      [|split; [discriminate | intros [D _]; discriminate]].
    destruct error as [code name|];
      [|split; [discriminate | intros (_ & c & n & E & _); discriminate]].
    rewrite !orb_true_iff, !String.eqb_eq. split.
    - intros H. split; [reflexivity|]. exists code, name. split; [reflexivity|].
      destruct H as [[[H|H]|H]|H]; auto;
        destruct code as [c|]; try discriminate; apply Z.eqb_eq in H; subst; auto.
    - intros (_ & c & n & E & H). injection E as E1 E2. subst c n.
      destruct H as [-> | [-> | [-> | ->]]]; cbn; auto;
        rewrite ?String.eqb_refl; auto. }
  destruct (LocalStorage.isQuotaExceededError pf error) eqn:I.
  - split; [|split].
    + now intros _ ->.
    + now intros _ ->.
    + intros N. exfalso. apply N, Q. reflexivity.
  - split; [|split].
    + intros q. apply Q in q. discriminate.
    + reflexivity.
    + reflexivity.
Qed.

Lemma LocalStorage_set_when_full_witness :
  let full := LocalStorage.DOMException (Some 22) "QuotaExceededError" in
  let pf := LocalStorage.Platform true (fun _ _ _ => Some full) (fun _ => None) in
  JS.JSON_stringify (JS.VStr "v") = Some (JS.quote "v")
  /\ LocalStorage.set pf (LocalStorage.Make true) [("a", "1")] "k" (JS.VStr "v")
     = LocalStorage.CalledOnFull [("a", "1")] full
  /\ LocalStorage.set pf (LocalStorage.Make false) [("a", "1")] "k" (JS.VStr "v")
     = LocalStorage.Thrown full.
Proof.
  cbv zeta.
  set (full := LocalStorage.DOMException (Some 22) "QuotaExceededError").
  set (pf := LocalStorage.Platform true (fun _ _ _ => Some full) (fun _ => None)).
  assert (T : JS.JSON_stringify (JS.VStr "v") = Some (JS.quote "v")) by reflexivity.
  assert (Q : LocalStorage.DOMException_defined pf = true
              /\ exists code name,
                   full = LocalStorage.DOMException code name
                   /\ (code = Some 22 \/ code = Some 1014
                       \/ name = "QuotaExceededError"
                       \/ name = "NS_ERROR_DOM_QUOTA_REACHED")).
  { split; [reflexivity|]. exists (Some 22), "QuotaExceededError". auto. }
  split; [exact T|]. split.
  - exact (proj1 (proj2 (LocalStorage_set_when_full pf (LocalStorage.Make true)
                           [("a", "1")] "k" (JS.VStr "v") _ T) full eq_refl)
             Q eq_refl).
  - exact (proj1 (proj2 (proj2 (LocalStorage_set_when_full pf (LocalStorage.Make false)
                                  [("a", "1")] "k" (JS.VStr "v") _ T) full eq_refl))
             Q eq_refl).
Defined.

Lemma skipn_nth_error {A : Type} (l : list A) (i : nat) (x : A) :
  nth_error l i = Some x -> skipn i l = x :: skipn (S i) l.
Proof.
  revert i; induction l as [|a l IH]; intros [|i] H; try discriminate.
  - now injection H as ->.
  - cbn [nth_error] in H. cbn [skipn]. now apply IH.
Qed.

Lemma getKeys_loop_runs (its : LocalStorage.items) (fuel i : nat)
    (keys : list (option string)) :
  (List.length its - i <= fuel)%nat ->
  LocalStorage.getKeys_loop its i fuel keys
  = (keys ++ map Some (skipn i (map fst its)))%list.
Proof.
  revert i keys; induction fuel as [|fuel IH]; intros i keys F;
    cbn [LocalStorage.getKeys_loop].
  - rewrite skipn_all2 by (rewrite length_map; lia). now rewrite app_nil_r.
  - destruct (Nat.ltb_spec i (List.length its)) as [L|L].
    + rewrite IH by lia. unfold LocalStorage.key.
      destruct (nth_error (map fst its) i) as [k|] eqn:E.
      * rewrite (skipn_nth_error _ _ _ E). cbn [map].
        now rewrite <- app_assoc.
      * apply nth_error_None in E. rewrite length_map in E. lia.
    + rewrite skipn_all2 by (rewrite length_map; lia). now rewrite app_nil_r.
Qed.

Lemma listed_hasObject (its : LocalStorage.items) (key : string) :
  In (Some key) (map (fun item => Some (fst item)) its)
  <-> LocalStorage.hasObject its key = true.
Proof.
  unfold LocalStorage.hasObject.
  induction its as [|[k0 t0] its IH]; cbn [map In LocalStorage.getItem fst].
  - split; [contradiction | discriminate].
  - destruct (String.eqb_spec k0 key) as [->|N].
    + split; auto.
    + rewrite <- IH. split; [intros [[= H]|H]; [contradiction | exact H] | auto].
Qed.

(** X23.  [getKeys()] returns the keys of the items, in the order of their
    indices and none of them [null]; giving its loop more turns than there
    are items changes nothing; a key is listed exactly when [hasObject]
    reports an item for it. *)
Theorem LocalStorage_getKeys_lists_the_items :
  forall its : LocalStorage.items,
    LocalStorage.getKeys its = map (fun item => Some (fst item)) its
    /\ (forall fuel, (List.length its <= fuel)%nat ->
          LocalStorage.getKeys_loop its 0 fuel [] = LocalStorage.getKeys its)
    /\ forall key, In (Some key) (LocalStorage.getKeys its)
                   <-> LocalStorage.hasObject its key = true.
Proof.
  intros its.
  assert (G : forall fuel, (List.length its <= fuel)%nat ->
              LocalStorage.getKeys_loop its 0 fuel []
              = map (fun item => Some (fst item)) its).
  { intros fuel F. rewrite getKeys_loop_runs by lia. cbn [skipn app].
    now rewrite map_map. }
  assert (E : LocalStorage.getKeys its = map (fun item => Some (fst item)) its)
    by (apply G; lia).
  split; [exact E|]. split; [intros fuel F; now rewrite E, G|].
  intros key. rewrite E. apply listed_hasObject.
Qed.

(** ** CachedStorage: registering a pattern *)

Lemma matches_any_app (matches : string -> string -> result bool)
    (key : string) (patterns more : list string) :
  CachedStorage.matches_any matches key (patterns ++ more)
  = match CachedStorage.matches_any matches key patterns with
    | Ok false => CachedStorage.matches_any matches key more
    | answer => answer
    end.
Proof.
  induction patterns as [|p ps IH]; [reflexivity|].
  change ((p :: ps) ++ more)%list with (p :: (ps ++ more))%list.
  rewrite !matches_any_cons, IH. now destruct (matches key p) as [[]|].
Qed.

(** X24.  [cacheKey(pattern)] touches nothing but the list of patterns, and
    afterwards [shouldCacheKey(key)] answers as before for every key on which
    it answered true or threw; for a key on which it answered false it now
    answers what the matcher says of the new pattern.  A key that is cached
    once stays eligible whatever is registered later. *)
Theorem CachedStorage_cacheKey_appends :
  forall (this : CachedStorage.t) (pattern key : string),
    let registered := CachedStorage.cacheKey this pattern in
    CachedStorage.shouldCacheKey registered key
    = match CachedStorage.shouldCacheKey this key with
      | Ok false => CachedStorage.matchesPattern this key pattern
      | answer => answer
      end
    /\ CachedStorage.cache registered = CachedStorage.cache this
    /\ CachedStorage.backend registered = CachedStorage.backend this
    /\ CachedStorage.timer registered = CachedStorage.timer this
    /\ CachedStorage.flushTimer registered = CachedStorage.flushTimer this
    /\ CachedStorage._isStarted registered = CachedStorage._isStarted this.
Proof.
  intros this pattern key registered. subst registered.
  split; [|now repeat split].
  unfold CachedStorage.shouldCacheKey, CachedStorage.cacheKey.
  cbn [CachedStorage.cachedKeys CachedStorage.with_cachedKeys
       CachedStorage.matchesPattern].
  destruct (CachedStorage.cachedKeys this) as [patterns|].
  - rewrite matches_any_app.
    destruct (CachedStorage.matches_any _ key patterns) as [[]|]; try reflexivity.
    cbn. now destruct (CachedStorage.matchesPattern this key pattern) as [[]|].
  - cbn. now destruct (CachedStorage.matchesPattern this key pattern) as [[]|].
Qed.

(** ** CachedStorage: whom a flush notifies *)

Lemma set_calls (s : MemoryStorage.t) (b : MemoryStorage.shared)
    (k : string) (v : JS.value) :
  MemoryStorage.calls (MemoryStorage.set s b k v)
  = (MemoryStorage.calls b
     ++ match MemoryStorage.id s with
        | Some i =>
            MemoryStorage.notify i (MemoryStorage.externalChangeListeners b)
              (MemoryStorage.Change k v (MemoryStorage.get s b k))
        | None => []
        end)%list.
Proof. unfold MemoryStorage.set. now rewrite trigger_calls. Qed.

Lemma write_back_calls (s : MemoryStorage.t) (c : JS.object) (ks : list string)
    (b : MemoryStorage.shared) :
  exists invoked,
    MemoryStorage.calls
      (fold_left (fun b key => MemoryStorage.set s b key (JS.prop_get c key)) ks b)
    = (MemoryStorage.calls b ++ invoked)%list
    /\ forall x, In x invoked ->
         In (MemoryStorage.callee x) (MemoryStorage.externalChangeListeners b)
         /\ MemoryStorage.storageId (MemoryStorage.callee x) <> MemoryStorage.id s
         /\ MemoryStorage.storageId (MemoryStorage.callee x) <> None
         /\ In (MemoryStorage.key (MemoryStorage.payload x)) ks
         /\ MemoryStorage.value (MemoryStorage.payload x)
            = JS.prop_get c (MemoryStorage.key (MemoryStorage.payload x)).
Proof.
  revert b; induction ks as [|k ks IH]; intros b; cbn [fold_left].
  - exists []. split; [now rewrite app_nil_r | contradiction].
  - destruct (IH (MemoryStorage.set s b k (JS.prop_get c k))) as (later & E & H).
    rewrite set_calls, <- app_assoc in E.
    eexists. split; [exact E|].
    intros x Hx. apply in_app_or in Hx. destruct Hx as [Hx|Hx].
    + destruct (MemoryStorage.id s) as [i|]; [|contradiction].
      apply notify_In in Hx. destruct Hx as (P & A & sid & S & N).
      rewrite P, S. cbn. repeat split; try congruence; auto.
    + destruct (H x Hx) as (A & B & C & D & F). rewrite set_listeners in A.
      repeat split; try assumption. now right.
Qed.


